(** * RNA sequence validation and feature extraction

    A shallow embedding of [RNAValidator] (src/api/utils/validators.py) and of
    [RNAMLClassifier._extract_features] (src/api/services/classifier.py),
    with the properties of the validation outcome, of the sequence statistics
    and of the feature vector; and of the code around them: the checks of
    the input panel (src/gradio_app/components/input_panel.py), the field
    validators of the request models (src/api/models/rna_models.py) and the
    validation endpoint (src/api/routes/classification.py).

    Conventions.
    - A Python [str] is a list of Unicode code points ([N]); a Python [int]
      is a [Z]; a Python [float] obtained by the true division of two
      integers is the exact quotient in [Q] (the comparisons the code makes
      against 0.0 and 1.0 agree with the exact ones, rounding being
      monotone). Sums of such quotients are exact in [Q] and only equal up
      to rounding on binary floats: where that matters the binary64 values
      are computed as well, see [binary64_div] and [sum_binary64].
    - The interpreter's Unicode tables ([str.upper], [str.isspace]) and its
      float formatting are parameters, see [PyRuntime]. *)

From Stdlib Require Import QArith Qabs Qround DecimalString.
From Stdlib Require SpecFloat.
From stdpp Require Import gmap list sorting strings.

Local Open Scope Z_scope.

(** ** Python values *)

Abbreviation char := N.
Abbreviation str := (list N).

(** The arguments [validate_rna_sequence] tells apart: [None], a string, and
    any value that is not an instance of [str]. *)
Inductive PyValue :=
  | PyNone
  | PyStr (s : str)
  | PyObject.

(** A string literal of the source, as a list of code points. *)
Definition lit (s : string) : str :=
  map Ascii.N_of_ascii (String.list_ascii_of_string s).

(** [len(s)] *)
Definition len {A} (l : list A) : Z := Z.of_nat (length l).

(** [str(n)] for an integer. *)
Definition str_of_int (n : Z) : str :=
  lit (NilZero.string_of_int (Z.to_int n)).

(** [a / b] on two integers: the exact quotient, of which the float Python
    returns is the binary64 rounding ([binary64_div] below). *)
Definition true_div (a b : Z) : Q := (inject_Z a / inject_Z b)%Q.

Definition Qlt_bool (x y : Q) : bool := negb (Qle_bool y x).

(** [s.count(c)] for a one-character [c]. *)
Fixpoint str_count (s : str) (c : char) : Z :=
  match s with
  | [] => 0
  | x :: s' => (if N.eqb x c then 1 else 0) + str_count s' c
  end.

(** [s[i]], for [i] within the string (the loops below never leave it). *)
Definition char_at (s : str) (i : nat) : char := nth i s 0%N.

(** [s[i:j]] for [0 <= i <= j]. *)
Definition slice (s : str) (i j : nat) : str := take (j - i) (drop i s).

(** [sep.join(parts)] *)
Fixpoint str_join (sep : str) (parts : list str) : str :=
  match parts with
  | [] => []
  | [p] => p
  | p :: ps => p ++ sep ++ str_join sep ps
  end.

(** [set(s)] *)
Definition str_set (s : str) : gset N := list_to_set s.

(** [sorted(X)] for a set of one-character strings: ascending code points. *)
Definition sorted (X : gset N) : list N := merge_sort N.le (elements X).

(** [s.startswith(p)] *)
Fixpoint startswith (s p : str) {struct p} : bool :=
  match p, s with
  | [], _ => true
  | c :: p', x :: s' => N.eqb x c && startswith s' p'
  | _ :: _, [] => false
  end.

(** ** The interpreter's tables *)

Class PyRuntime := {
  (** the full uppercase mapping of one code point (one to three code
      points), which [str.upper] applies to every character in turn *)
  upper_char : char → str;
  (** [str.isspace] on one code point, the characters [str.strip] removes *)
  isspace : char → bool;
  (** [format(x, ".3f")] *)
  format_3f : Q → str;
}.

Section Strings.
Context `{PyRuntime}.

(** [s.upper()] *)
Definition upper (s : str) : str := concat (map upper_char s).

Fixpoint lstrip (s : str) : str :=
  match s with
  | [] => []
  | c :: s' => if isspace c then lstrip s' else s
  end.

Fixpoint rstrip (s : str) : str :=
  match s with
  | [] => []
  | c :: s' =>
      match rstrip s' with
      | [] => if isspace c then [] else [c]
      | r => c :: r
      end
  end.

(** [s.strip()] *)
Definition strip (s : str) : str := rstrip (lstrip s).
End Strings.

(** ** RNAValidator *)

(** The attributes set by [__init__]. *)
Definition valid_bases : gset N := str_set (lit "AUGC").
Definition min_length : Z := 1.
Definition max_length : Z := 50000.
Definition min_gc_content : Q := 0.
Definition max_gc_content : Q := 1.

(** The error messages. The two length messages end with a tab. *)
Definition msg_none : str := lit "The sequence is None".
Definition msg_not_string : str := lit "The sequence must be a string".
Definition msg_empty : str := lit "An empty sequence is invalid".
Definition msg_too_short : str :=
  lit "The sequence length is too short: " ++ str_of_int min_length ++ [9%N].
Definition msg_too_long : str :=
  lit "The sequence length is too long: " ++ str_of_int max_length ++ [9%N].
Definition pre_invalid_bases : str := lit "Invalid bases are included: ".
Definition msg_invalid_bases (bases : list N) : str :=
  pre_invalid_bases ++ str_join (lit ", ") (map (λ c, [c]) bases).
Definition pre_repetitive : str :=
  lit "An abnormal repetitive sequence was detected".
Definition msg_repetitive (max_repeat_length : Z) : str :=
  pre_repetitive ++ str_of_int max_repeat_length.
Definition pre_gc_content : str := lit "The GC content is out of range: ".
(** [min_gc_content] and [max_gc_content] print as 0.0 and 1.0. *)
Definition msg_gc_content `{PyRuntime} (gc_content : Q) : str :=
  pre_gc_content ++ format_3f gc_content ++ lit " (Valid range: 0.0-1.0)".

(** [_calculate_gc_content] *)
Definition calculate_gc_content (sequence : str) : Q :=
  if len sequence =? 0 then 0%Q
  else
    let g_count := str_count sequence 71%N in
    let c_count := str_count sequence 67%N in
    true_div (g_count + c_count) (len sequence).

(** [_check_repetitive_sequence]: the loop over [range(1, len(sequence))]
    carries [(max_repeat, current_repeat)]. *)
Definition repeat_step (sequence : str) (st : Z * Z) (i : nat) : Z * Z :=
  let '(max_repeat, current_repeat) := st in
  if N.eqb (char_at sequence i) (char_at sequence (i - 1)) then
    let current_repeat := current_repeat + 1 in
    (Z.max max_repeat current_repeat, current_repeat)
  else (max_repeat, 1).

Definition check_repetitive_sequence (sequence : str) : Z :=
  if len sequence =? 0 then 0
  else
    fst (foldl (repeat_step sequence) (1, 1) (seq 1 (length sequence - 1))).

Section Validator.
Context `{PyRuntime}.

(** [validate_rna_sequence]: [errors] grows by [append] from check to
    check. *)
Definition validate_rna_sequence (sequence : PyValue) : bool * list str :=
  let errors : list str := [] in
  match sequence with
  | PyNone => (false, errors ++ [msg_none])
  | PyObject => (false, errors ++ [msg_not_string])
  | PyStr sequence =>
      if bool_decide (strip sequence = []) then
        (false, errors ++ [msg_empty])
      else
        let cleaned_sequence := upper (strip sequence) in
        let errors :=
          if len cleaned_sequence <? min_length
          then errors ++ [msg_too_short] else errors in
        let errors :=
          if max_length <? len cleaned_sequence
          then errors ++ [msg_too_long] else errors in
        let invalid_bases := str_set cleaned_sequence ∖ valid_bases in
        let errors :=
          if bool_decide (invalid_bases ≠ ∅)
          then errors ++ [msg_invalid_bases (sorted invalid_bases)]
          else errors in
        let errors :=
          if 0 <? len cleaned_sequence then
            let max_repeat_length :=
              check_repetitive_sequence cleaned_sequence in
            if 50 <? max_repeat_length
            then errors ++ [msg_repetitive max_repeat_length] else errors
          else errors in
        let errors :=
          if (0 <? len cleaned_sequence) && bool_decide (invalid_bases = ∅)
          then
            let gc_content := calculate_gc_content cleaned_sequence in
            if Qlt_bool gc_content min_gc_content
               || Qlt_bool max_gc_content gc_content
            then errors ++ [msg_gc_content gc_content] else errors
          else errors in
        (len errors =? 0, errors)
  end.
End Validator.

(** The dictionary [get_sequence_statistics] returns; the two inner
    dictionaries keep their insertion order A, U, G, C. *)
Record Statistics := {
  stat_length : Z;
  stat_base_counts : list (N * Z);
  stat_base_frequencies : list (N * Q);
  stat_gc_content : Q;
  stat_au_content : Q;
  stat_max_repeat_length : Z;
}.

(** [d[key]] on such a dictionary (every key read below is present). *)
Definition dict_get {V} (d : list (N * V)) (key : N) (default : V) : V :=
  match list_find (λ kv, kv.1 = key) d with
  | Some (_, kv) => kv.2
  | None => default
  end.

(** [d.values()] *)
Definition dict_values {V} (d : list (N * V)) : list V := map snd d.

(** [sum(xs)] on integers, and the exact sum of quotients (on floats
    [sum] rounds after every addition, see [sum_binary64]). *)
Definition sum_int (xs : list Z) : Z := foldl Z.add 0 xs.

(** ** The same quotients in binary64

    IEEE 754 binary64 with rounding to nearest, ties to even, as Python's
    floats: the conversion of an integer (exact below 2^53), the division
    of two integers, the addition, and [sum] over floats, which starts
    from 0 and adds from left to right. *)
Definition binary64_of_int (z : Z) : SpecFloat.spec_float :=
  SpecFloat.binary_normalize 53 1024 z 0 false.

Definition binary64_div (a b : Z) : SpecFloat.spec_float :=
  SpecFloat.SFdiv 53 1024 (binary64_of_int a) (binary64_of_int b).

Definition binary64_add (x y : SpecFloat.spec_float) : SpecFloat.spec_float :=
  SpecFloat.SFadd 53 1024 x y.

Definition sum_binary64 (xs : list SpecFloat.spec_float)
  : SpecFloat.spec_float :=
  foldl binary64_add (binary64_of_int 0) xs.


Section Statistics.
Context `{PyRuntime}.

(** [get_sequence_statistics]; [None] stands for the empty dictionary. *)
Definition get_sequence_statistics (sequence : str) : option Statistics :=
  if bool_decide (sequence = []) then None
  else
    let cleaned := upper sequence in
    let length := len cleaned in
    if length =? 0 then None
    else
      let base_counts :=
        [ (65%N, str_count cleaned 65%N);
          (85%N, str_count cleaned 85%N);
          (71%N, str_count cleaned 71%N);
          (67%N, str_count cleaned 67%N) ] in
      let gc_content :=
        true_div (dict_get base_counts 71%N 0 + dict_get base_counts 67%N 0)
                 length in
      let au_content :=
        true_div (dict_get base_counts 65%N 0 + dict_get base_counts 85%N 0)
                 length in
      Some {|
        stat_length := length;
        stat_base_counts := base_counts;
        stat_base_frequencies :=
          map (λ '(base, count), (base, true_div count length)) base_counts;
        stat_gc_content := gc_content;
        stat_au_content := au_content;
        stat_max_repeat_length := check_repetitive_sequence cleaned;
      |}.
End Statistics.

(** The floats of that dictionary as Python computes them from its
    integers: [count / length] for the items of [base_counts], and the two
    contents. *)
Record StatisticsFloats := {
  float_base_frequencies : list (N * SpecFloat.spec_float);
  float_gc_content : SpecFloat.spec_float;
  float_au_content : SpecFloat.spec_float;
}.

Definition statistics_binary64 (st : Statistics) : StatisticsFloats :=
  let length := stat_length st in
  let base_counts := stat_base_counts st in
  {|
    float_base_frequencies :=
      map (λ '(base, count), (base, binary64_div count length)) base_counts;
    float_gc_content :=
      binary64_div (dict_get base_counts 71%N 0 + dict_get base_counts 67%N 0)
                   length;
    float_au_content :=
      binary64_div (dict_get base_counts 65%N 0 + dict_get base_counts 85%N 0)
                   length;
  |}.

(** ** RNAMLClassifier._extract_features *)

(** [np.zeros(n)] *)
Definition np_zeros (n : nat) : list Q := replicate n 0%Q.

Definition dimers : list str :=
  [ lit "AA"; lit "AU"; lit "AG"; lit "AC"; lit "UU";
    lit "UG"; lit "UC"; lit "GG"; lit "GC"; lit "CC" ].

(** The inner loop over [range(len(sequence) - 1)] for one [dimer]. *)
Definition dimer_count (sequence dimer : str) : Z :=
  foldl (λ count i,
           if bool_decide (slice sequence i (i + 2) = dimer)
           then count + 1 else count)
        0 (seq 0 (length sequence - 1)).

Definition dimer_freq (sequence dimer : str) : Q :=
  let length := len sequence in
  let count := dimer_count sequence dimer in
  if 1 <? length then true_div count (length - 1) else 0%Q.

Section Classifier.
Context `{PyRuntime}.

Definition extract_features (sequence : str) : list Q :=
  let sequence := upper sequence in
  let length := len sequence in
  if length =? 0 then np_zeros 20
  else
    let a_count := str_count sequence 65%N in
    let u_count := str_count sequence 85%N in
    let g_count := str_count sequence 71%N in
    let c_count := str_count sequence 67%N in
    let a_freq := true_div a_count length in
    let u_freq := true_div u_count length in
    let g_freq := true_div g_count length in
    let c_freq := true_div c_count length in
    let gc_content := true_div (g_count + c_count) length in
    let au_ratio := true_div (a_count + u_count) length in
    let purine_ratio := true_div (a_count + g_count) length in
    let pyrimidine_ratio := true_div (u_count + c_count) length in
    let dimer_freqs := map (dimer_freq sequence) dimers in
    let features :=
      [ inject_Z length;
        a_freq; u_freq; g_freq; c_freq;
        gc_content; au_ratio; purine_ratio; pyrimidine_ratio ]
      ++ dimer_freqs in
    features.
End Classifier.

(** [get_feature_importance]: the labels zipped with the importances of the
    trained model. *)
Definition feature_names : list str :=
  [ lit "length"; lit "A_freq"; lit "U_freq"; lit "G_freq"; lit "C_freq";
    lit "GC_content"; lit "AU_ratio"; lit "purine_ratio";
    lit "pyrimidine_ratio" ]
  ++ map (λ dimer, dimer ++ lit "_freq") dimers.

(** ** RNAValidator: names, parameters, metadata, suggestions *)

Definition msg_name_not_string : str :=
  lit "The sequence name must be a string".
Definition msg_name_too_long : str :=
  lit "The sequence name is too long (maximum 100 characters)".
Definition msg_name_invalid : str :=
  lit "The sequence name contains invalid characters".

(** The character class of the pattern searched in a name: less-than,
    greater-than, colon, double quote, slash, bar, question mark, star. The
    pattern escapes the bar, so the backslash itself is no member. *)
Definition name_class : list N := [60; 62; 58; 34; 47; 124; 63; 42]%N.

(** [re.search] of a pattern that is one character class. *)
Definition re_search_class (class : list N) (s : str) : bool :=
  existsb (λ c, bool_decide (c ∈ class)) s.

(** Numbers as [validate_classification_params] may receive them. A float
    is a rational, an infinity or NaN; [bool] is a subclass of [int]. *)
Inductive PyFloat :=
  | Finite (q : Q)
  | PosInf
  | NegInf
  | NaN.

Inductive PyArg :=
  | ArgInt (n : Z)
  | ArgBool (b : bool)
  | ArgFloat (x : PyFloat)
  | ArgOther.

(** [isinstance(a, int)] and [isinstance(a, (int, float))] *)
Definition isinstance_int (a : PyArg) : bool :=
  match a with ArgInt _ | ArgBool _ => true | _ => false end.
Definition isinstance_int_float (a : PyArg) : bool :=
  match a with ArgOther => false | _ => true end.

(** The value a number is compared by. *)
Definition as_float (a : PyArg) : PyFloat :=
  match a with
  | ArgInt n => Finite (inject_Z n)
  | ArgBool b => Finite (inject_Z (Z.b2z b))
  | ArgFloat x => x
  | ArgOther => NaN
  end.

(** [x < y] and [x <= y]; every comparison with NaN is false. *)
Definition float_lt (x y : PyFloat) : bool :=
  match x, y with
  | NaN, _ | _, NaN => false
  | _, NegInf => false
  | NegInf, _ => true
  | PosInf, _ => false
  | Finite _, PosInf => true
  | Finite a, Finite b => Qlt_bool a b
  end.

Definition float_le (x y : PyFloat) : bool :=
  match x, y with
  | NaN, _ | _, NaN => false
  | NegInf, _ => true
  | _, NegInf => false
  | _, PosInf => true
  | PosInf, _ => false
  | Finite a, Finite b => Qle_bool a b
  end.

Definition msg_top_k : str :=
  lit "Please specify top_k as an integer from 1 to 100".
Definition msg_confidence_threshold : str :=
  lit "Please specify confidence_threshold as an integer from 0.0 to 1.0".
Definition msg_similarity_threshold : str :=
  lit "Please specify similarity_threshold as an integer from 0.0 to 1.0".

Definition validate_classification_params
    (top_k confidence_threshold : PyArg) : bool * list str :=
  let errors : list str := [] in
  let errors :=
    if negb (isinstance_int top_k)
       || float_le (as_float top_k) (Finite 0)
       || float_lt (Finite 100) (as_float top_k)
    then errors ++ [msg_top_k] else errors in
  let errors :=
    if negb (isinstance_int_float confidence_threshold)
       || float_lt (as_float confidence_threshold) (Finite 0)
       || float_lt (Finite 1) (as_float confidence_threshold)
    then errors ++ [msg_confidence_threshold] else errors in
  (len errors =? 0, errors).

Definition validate_search_params
    (top_k similarity_threshold : PyArg) : bool * list str :=
  let errors : list str := [] in
  let errors :=
    if negb (isinstance_int top_k)
       || float_le (as_float top_k) (Finite 0)
       || float_lt (Finite 100) (as_float top_k)
    then errors ++ [msg_top_k] else errors in
  let errors :=
    if negb (isinstance_int_float similarity_threshold)
       || float_lt (as_float similarity_threshold) (Finite 0)
       || float_lt (Finite 1) (as_float similarity_threshold)
    then errors ++ [msg_similarity_threshold] else errors in
  (len errors =? 0, errors).

(** A key of a metadata dictionary: a string, or another object with the
    text [str(key)] gives for it. *)
Inductive PyKey :=
  | KeyStr (s : str)
  | KeyObject (text : str).

Definition str_of_key (key : PyKey) : str :=
  match key with KeyStr s => s | KeyObject text => text end.

(** The argument of [validate_metadata]: [None], a dictionary with its
    items in order, or a value that is no dictionary. *)
Inductive PyMetadata :=
  | MetaNone
  | MetaDict (items : list (PyKey * PyValue))
  | MetaObject.

Definition msg_metadata_not_dict : str :=
  lit "Metadata must be in a dictionary format".
Definition msg_metadata_key_type (key : PyKey) : str :=
  lit "Metadata keys must be strings: " ++ str_of_key key.
Definition msg_metadata_key_long (key : PyKey) : str :=
  lit "Metadata keys are too long: " ++ str_of_key key.
Definition msg_metadata_value_long (key : PyKey) : str :=
  lit "Metadata values are too long: " ++ str_of_key key.

(** The body of the loop over [metadata.items()]. *)
Definition metadata_step (errors : list str) (item : PyKey * PyValue)
  : list str :=
  let '(key, value) := item in
  let errors :=
    if negb (match key with KeyStr _ => true | KeyObject _ => false end)
    then errors ++ [msg_metadata_key_type key] else errors in
  let errors :=
    if 100 <? len (str_of_key key)
    then errors ++ [msg_metadata_key_long key] else errors in
  let errors :=
    if match value with PyStr v => 1000 <? len v | _ => false end
    then errors ++ [msg_metadata_value_long key] else errors in
  errors.

Definition validate_metadata (metadata : PyMetadata) : bool * list str :=
  let errors : list str := [] in
  match metadata with
  | MetaNone => (true, [])
  | MetaObject => (false, errors ++ [msg_metadata_not_dict])
  | MetaDict items =>
      let errors := foldl metadata_step errors items in
      (len errors =? 0, errors)
  end.

Definition msg_suggest_T : str :=
  lit "he sequence contains T. Please use U for the RNA sequence".
Definition msg_suggest_upper : str :=
  lit "Recommend writing sequences in uppercase".
Definition msg_suggest_space : str :=
  lit "The sequence contains a space. Please remove it".
Definition msg_example (corrected : str) : str := lit "Example: " ++ corrected.

(** [s.replace(old, new)] for one-character [old] and [new]. *)
Definition str_replace (s : str) (old new : char) : str :=
  map (λ c, if N.eqb c old then new else c) s.

Section ValidatorMore.
Context `{PyRuntime}.

Definition validate_sequence_name (name : PyValue) : bool * list str :=
  let errors : list str := [] in
  match name with
  | PyNone => (true, [])
  | PyObject => (false, errors ++ [msg_name_not_string])
  | PyStr name =>
      if len (strip name) =? 0 then (true, [])
      else
        let errors :=
          if 100 <? len name then errors ++ [msg_name_too_long] else errors in
        let errors :=
          if re_search_class name_class name
          then errors ++ [msg_name_invalid] else errors in
        (len errors =? 0, errors)
  end.

(** [re.sub(r'\s', '', s)]: the pattern matches the characters of
    [str.isspace]. *)
Definition remove_whitespace (s : str) : str :=
  filter (λ c, isspace c = false) s.

Definition suggest_corrections (sequence : str) : list str :=
  let suggestions : list str := [] in
  if bool_decide (sequence = []) then suggestions
  else
    let suggestions :=
      if bool_decide (84%N ∈ upper sequence) then
        let corrected := str_replace (upper sequence) 84%N 85%N in
        (suggestions ++ [msg_suggest_T]) ++ [msg_example corrected]
      else suggestions in
    let suggestions :=
      if bool_decide (sequence ≠ upper sequence)
      then suggestions ++ [msg_suggest_upper] else suggestions in
    let suggestions :=
      if existsb isspace sequence then
        let corrected := remove_whitespace sequence in
        (suggestions ++ [msg_suggest_space]) ++ [msg_example corrected]
      else suggestions in
    suggestions.
End ValidatorMore.

(** ** gradio_app/components/input_panel.py *)

Module InputPanel.

Definition msg_enter : str :=
  lit "Please enter an RNA sequence to begin validation".
Definition msg_invalid_characters (bases : list N) : str :=
  lit "Invalid characters detected: "
  ++ str_join (lit ", ") (map (λ c, [c]) bases)
  ++ lit ". Only A, U, G, C are allowed in RNA sequences.".
Definition msg_too_short : str :=
  lit "The sequence is too short. Please enter at least 1 nucleotide.".
Definition msg_too_long : str :=
  lit "The sequence is too long. Maximum length is 50,000 nucleotides.".
Definition msg_repeats (max_repeat : Z) : str :=
  lit "Too many consecutive identical nucleotides detected ("
  ++ str_of_int max_repeat
  ++ lit "). This might indicate a data quality issue.".

(** The module's own copy of the repeat scan. *)
Definition check_repetitive_sequence (sequence : str) : Z :=
  if len sequence =? 0 then 0
  else
    fst (foldl (repeat_step sequence) (1, 1) (seq 1 (length sequence - 1))).

Definition msg_invalid_structure (chars : list N) : str :=
  lit "Invalid structure notation characters: "
  ++ str_join (lit ", ") (map (λ c, [c]) chars)
  ++ lit ". Only ( ) < > [ ] { } . are allowed.".
Definition msg_unbalanced (open_bracket close_bracket : char) : str :=
  lit "Unbalanced structure notation: "
  ++ [open_bracket] ++ [close_bracket]
  ++ lit " brackets don't match. Each opening bracket must have a corresponding closing bracket.".

Definition structure_chars : gset N := str_set (lit "().<>[]{}").
Definition bracket_pairs : list (char * char) :=
  [ (40, 41); (60, 62); (91, 93); (123, 125) ]%N.

(** The body of the loop over [bracket_pairs]. *)
Definition bracket_step (cleaned_structure : str) (errors : list str)
    (pair : char * char) : list str :=
  let '(open_bracket, close_bracket) := pair in
  let open_count := str_count cleaned_structure open_bracket in
  let close_count := str_count cleaned_structure close_bracket in
  if negb (open_count =? close_count)
  then errors ++ [msg_unbalanced open_bracket close_bracket] else errors.

(** The dictionary of [calculate_sequence_stats]. *)
Record SequenceStats := {
  ss_length : Z;
  ss_base_counts : list (N * Z);
  ss_gc_content : Q;
  ss_au_content : Q;
  ss_max_repeat_length : Z;
}.

Definition calculate_sequence_stats (sequence : str) : option SequenceStats :=
  if bool_decide (sequence = []) then None
  else
    let length := len sequence in
    let base_counts :=
      [ (65%N, str_count sequence 65%N);
        (85%N, str_count sequence 85%N);
        (71%N, str_count sequence 71%N);
        (67%N, str_count sequence 67%N) ] in
    let gc_content :=
      if 0 <? length
      then true_div (dict_get base_counts 71%N 0 + dict_get base_counts 67%N 0)
                    length
      else 0%Q in
    let au_content :=
      if 0 <? length
      then true_div (dict_get base_counts 65%N 0 + dict_get base_counts 85%N 0)
                    length
      else 0%Q in
    Some {|
      ss_length := length;
      ss_base_counts := base_counts;
      ss_gc_content := gc_content;
      ss_au_content := au_content;
      ss_max_repeat_length := check_repetitive_sequence sequence;
    |}.

Section Panel.
Context `{PyRuntime}.

Definition validate_rna_sequence (sequence : str) : bool * str * list str :=
  let errors : list str := [] in
  if bool_decide (sequence = []) then (false, [], [msg_enter])
  else
    let cleaned_sequence := upper (strip sequence) in
    let valid_bases := str_set (lit "AUGC") in
    let invalid_bases := str_set cleaned_sequence ∖ valid_bases in
    let errors :=
      if bool_decide (invalid_bases ≠ ∅)
      then errors ++ [msg_invalid_characters (sorted invalid_bases)]
      else errors in
    let errors :=
      if len cleaned_sequence <? 1 then errors ++ [msg_too_short]
      else if 50000 <? len cleaned_sequence then errors ++ [msg_too_long]
      else errors in
    let max_repeat := check_repetitive_sequence cleaned_sequence in
    let errors :=
      if 50 <? max_repeat then errors ++ [msg_repeats max_repeat]
      else errors in
    let is_valid := len errors =? 0 in
    (is_valid, cleaned_sequence, errors).

Definition validate_dot_bracket (structure : str) : bool * str * list str :=
  let errors : list str := [] in
  if bool_decide (structure = []) then (true, [], [])
  else
    let cleaned_structure := strip structure in
    let valid_chars := structure_chars in
    let invalid_chars := str_set cleaned_structure ∖ valid_chars in
    let errors :=
      if bool_decide (invalid_chars ≠ ∅)
      then errors ++ [msg_invalid_structure (sorted invalid_chars)]
      else errors in
    let errors := foldl (bracket_step cleaned_structure) errors bracket_pairs in
    let is_valid := len errors =? 0 in
    (is_valid, cleaned_structure, errors).
End Panel.

End InputPanel.

(** ** api/models/rna_models.py: the field validators *)

Module RnaModels.

(** The [ValueError] a field validator raises: with a fixed message, or
    with the set of invalid bases its message prints. *)
Inductive ValueError :=
  | Message (text : str)
  | InvalidBases (invalid_bases : gset N).

Inductive Validated :=
  | Returns (sequence_upper : str)
  | Raises (e : ValueError).

Section Fields.
Context `{PyRuntime}.

(** The three validators have one body and differ in the message for an
    empty value. *)
Definition validate_field (empty_message : str) (v : str) : Validated :=
  if bool_decide (v = []) || bool_decide (strip v = []) then
    Raises (Message empty_message)
  else
    let sequence_upper := upper (strip v) in
    let valid_bases := str_set (lit "AUGC") in
    if negb (forallb (λ base, bool_decide (base ∈ valid_bases)) sequence_upper)
    then
      let invalid_bases := str_set sequence_upper ∖ valid_bases in
      Raises (InvalidBases invalid_bases)
    else Returns sequence_upper.

(** [RNASequence.validate_rna_sequence] *)
Definition validate_rna_sequence : str → Validated :=
  validate_field (lit "Enter a valid RNA sequence").
(** [ClassificationRequest.validate_sequence] *)
Definition validate_sequence : str → Validated :=
  validate_field (lit "Sequence cannot be empty").
(** [VectorSearchRequest.validate_query_sequence] *)
Definition validate_query_sequence : str → Validated :=
  validate_field (lit "Query sequence cannot be empty").
End Fields.

End RnaModels.

(** ** api/routes/classification.py: the validation endpoint *)

Module Routes.

Record ValidationResponse := {
  is_valid : bool;
  sequence : str;
  length : Z;
  gc_content : Q;
  errors : list str;
}.

(** The handler of [POST /validate], on the [sequence] of its request;
    [stats.get(key, default)] reads the statistics, empty or not. *)
Definition validate_rna_sequence `{PyRuntime} (sequence : str)
  : ValidationResponse :=
  let '(is_valid, validation_errors) :=
    validate_rna_sequence (PyStr sequence) in
  let stats := get_sequence_statistics sequence in
  {| is_valid := is_valid;
     sequence := if bool_decide (sequence ≠ []) then upper sequence else [];
     length := match stats with Some st => stat_length st | None => 0 end;
     gc_content :=
       match stats with Some st => stat_gc_content st | None => 0%Q end;
     errors := validation_errors |}.

End Routes.

(** ** Reference notions the properties are stated with *)

(** The number of leading characters of [s] equal to [c]. *)
Fixpoint run_from (c : char) (s : str) : nat :=
  match s with
  | [] => 0
  | x :: s' => if N.eqb x c then S (run_from c s') else 0
  end.

(** The length of the longest block of one repeated character. *)
Fixpoint longest_run (s : str) : nat :=
  match s with
  | [] => 0
  | c :: s' => Nat.max (S (run_from c s')) (longest_run s')
  end.

(** The positions [i] at which [dimer] occurs in [s]. *)
Definition dimer_positions (s dimer : str) : list nat :=
  filter (λ i, slice s i (i + 2) = dimer) (seq 0 (length s)).

(** A string over the alphabet. *)
Definition conformant (s : str) : Prop := Forall (λ c, c ∈ valid_bases) s.

(** The characters an alphabet error has to list. *)
Definition offending (s : str) (c : char) : Prop := c ∈ s ∧ c ∉ valid_bases.

(** Recognising the kind of an error message by its fixed text. *)
Definition is_alphabet_error (e : str) : bool := startswith e pre_invalid_bases.
Definition is_repeat_error (e : str) : bool := startswith e pre_repetitive.
Definition is_gc_error (e : str) : bool := startswith e pre_gc_content.
Definition is_length_error (e : str) : bool :=
  startswith e (lit "The sequence length is too ").

(** What the properties need of the interpreter's tables: the four bases are
    upper-case letters and no whitespace, whitespace has no case, and no
    character is upper-cased to the empty string. *)
Class PyRuntimeLaws `{PyRuntime} : Prop := {
  upper_char_base c : c ∈ valid_bases → upper_char c = [c];
  isspace_base c : c ∈ valid_bases → isspace c = false;
  upper_char_space c : isspace c = true → upper_char c = [c];
  upper_char_nonempty c : upper_char c ≠ [];
}.

(** ** The tables on ASCII text, to run the model on examples *)

Definition ascii_upper_char (c : char) : str :=
  if ((97 <=? c) && (c <=? 122))%N then [(c - 32)%N] else [c].

Definition ascii_isspace (c : char) : bool :=
  ((9 <=? c) && (c <=? 13) || (28 <=? c) && (c <=? 32))%N.

(** Three decimals of a quotient, half away from zero. *)
Definition fixed_3 (x : Q) : str :=
  let n := Qfloor (Qabs x * 1000 + (1 # 2))%Q in
  let digits := str_of_int (n mod 1000) in
  (if Qlt_bool x 0 then lit "-" else [])
  ++ str_of_int (n / 1000) ++ lit "."
  ++ replicate (3 - length digits) 48%N ++ digits.

#[export] Instance ascii_runtime : PyRuntime := {|
  upper_char := ascii_upper_char;
  isspace := ascii_isspace;
  format_3f := fixed_3;
|}.

(** The values the two parameter checks let through: an integer from 1 to
    100 ([True] counts as 1), and a number that is neither below 0 nor
    above 1, which holds for NaN as well. *)
Definition top_k_ok (top_k : PyArg) : Prop :=
  match top_k with
  | ArgInt n => 1 ≤ n ≤ 100
  | ArgBool b => b = true
  | _ => False
  end.

Definition threshold_ok (threshold : PyArg) : Prop :=
  match threshold with
  | ArgInt n => 0 ≤ n ≤ 1
  | ArgBool _ => True
  | ArgFloat (Finite q) => (0 <= q)%Q ∧ (q <= 1)%Q
  | ArgFloat NaN => True
  | _ => False
  end.

(** A metadata item no check objects to. *)
Definition item_ok (item : PyKey * PyValue) : Prop :=
  match item with
  | (KeyStr key, PyStr value) => len key ≤ 100 ∧ len value ≤ 1000
  | (KeyStr key, _) => len key ≤ 100
  | (KeyObject _, _) => False
  end.

(** A sequence name no check objects to. *)
Definition name_ok `{PyRuntime} (name : PyValue) : Prop :=
  match name with
  | PyNone => True
  | PyObject => False
  | PyStr name =>
      strip name = [] ∨ (len name ≤ 100 ∧ ∀ c, c ∈ name → c ∉ name_class)
  end.

(** Dot-bracket structures whose brackets are matched and nested. *)
Inductive well_nested : str → Prop :=
  | wn_nil : well_nested []
  | wn_dot w : well_nested w → well_nested (46%N :: w)
  | wn_pair open_bracket close_bracket inner rest :
      (open_bracket, close_bracket) ∈ InputPanel.bracket_pairs →
      well_nested inner →
      well_nested rest →
      well_nested ([open_bracket] ++ inner ++ [close_bracket] ++ rest).

(** The errors of [validate_dot_bracket] for one pair of brackets. *)
Definition bracket_errors (cleaned_structure : str) (pair : char * char)
  : list str := InputPanel.bracket_step cleaned_structure [] pair.

(** The scan of [_check_repetitive_sequence] read off the characters that
    remain after [prev], used to reason about the loop over indices. *)
Fixpoint scan_from (prev : char) (rest : str) (st : Z * Z) : Z * Z :=
  match rest with
  | [] => st
  | c :: rest' =>
      scan_from c rest'
        (if N.eqb c prev then (Z.max st.1 (st.2 + 1), st.2 + 1) else (st.1, 1))
  end.

(** One optional entry of the error list. *)
Definition err_if (b : bool) (e : str) : list str := if b then [e] else [].

(** The errors [validate_rna_sequence] collects on a normalised string,
    the GC check left out (it never adds one, see [validate_str]). *)
Definition content_errors (cleaned_sequence : str) : list str :=
  let invalid_bases := str_set cleaned_sequence ∖ valid_bases in
  let max_repeat_length := check_repetitive_sequence cleaned_sequence in
  err_if (len cleaned_sequence <? min_length) msg_too_short
  ++ err_if (max_length <? len cleaned_sequence) msg_too_long
  ++ err_if (bool_decide (invalid_bases ≠ ∅))
            (msg_invalid_bases (sorted invalid_bases))
  ++ err_if ((0 <? len cleaned_sequence) && (50 <? max_repeat_length))
            (msg_repetitive max_repeat_length).

(** The inputs rejected before any check of the content. *)
Definition not_a_sequence `{PyRuntime} (v : PyValue) : Prop :=
  match v with
  | PyNone | PyObject => True
  | PyStr s => strip s = []
  end.

(** The errors [validate_dot_bracket] collects on a trimmed structure. *)
Definition dot_bracket_errors (cleaned_structure : str) : list str :=
  let invalid_chars :=
    str_set cleaned_structure ∖ InputPanel.structure_chars in
  err_if (bool_decide (invalid_chars ≠ ∅))
         (InputPanel.msg_invalid_structure (sorted invalid_chars))
  ++ concat (map (bracket_errors cleaned_structure) InputPanel.bracket_pairs).


(** * Properties *)

(** ** Integers, quotients and strings *)

Lemma len_nonneg {A} (l : list A) : 0 ≤ len l.
Proof. unfold len. lia. Qed.

Lemma len_nil_iff {A} (l : list A) : len l = 0 ↔ l = [].
Proof. unfold len. destruct l; simpl; split; intros; (done || lia). Qed.

Lemma len_app {A} (l k : list A) : len (l ++ k) = len l + len k.
Proof. unfold len. rewrite length_app. lia. Qed.

Lemma true_div_unit a b :
  0 ≤ a ≤ b → 0 < b → (0 <= true_div a b)%Q ∧ (true_div a b <= 1)%Q.
Proof.
  intros [Ha Hab] Hb. unfold true_div.
  assert (inject_Z 0 < inject_Z b)%Q as Hq by (by rewrite <- Zlt_Qlt).
  split.
  - apply Qle_shift_div_l; [done|]. rewrite Qmult_0_l.
    change 0%Q with (inject_Z 0). by rewrite <- Zle_Qle.
  - apply Qle_shift_div_r; [done|]. rewrite Qmult_1_l. by rewrite <- Zle_Qle.
Qed.

Lemma true_div_split a b n :
  n ≠ 0 → (true_div a n + true_div b n == true_div (a + b) n)%Q.
Proof.
  intros Hn. unfold true_div. rewrite inject_Z_plus.
  assert (¬ (inject_Z n == 0)%Q) by (by rewrite (inject_Z_injective n 0)).
  by field.
Qed.

Lemma true_div_self n : n ≠ 0 → (true_div n n == 1)%Q.
Proof.
  intros Hn. unfold true_div.
  assert (¬ (inject_Z n == 0)%Q) by (by rewrite (inject_Z_injective n 0)).
  by field.
Qed.

Lemma elem_of_valid_bases c :
  c ∈ valid_bases ↔ c = 65%N ∨ c = 85%N ∨ c = 71%N ∨ c = 67%N.
Proof.
  unfold valid_bases, str_set. rewrite elem_of_list_to_set.
  change (lit "AUGC") with [65%N; 85%N; 71%N; 67%N].
  rewrite !elem_of_cons, elem_of_nil. tauto.
Qed.

Lemma str_count_nonneg s c : 0 ≤ str_count s c.
Proof. induction s as [|x s IH]; simpl; [done|]. destruct (N.eqb x c); lia. Qed.

(** The four counting passes see exactly the characters of the alphabet. *)
Lemma base_counts_le s :
  str_count s 65%N + str_count s 85%N + str_count s 71%N + str_count s 67%N
  ≤ len s.
Proof.
  induction s as [|x s IH]; [done|]. unfold len in *. simpl.
  repeat match goal with |- context [N.eqb ?a ?b] =>
    destruct (N.eqb_spec a b) end; subst; try discriminate; lia.
Qed.

Lemma base_counts_conformant s :
  conformant s →
  str_count s 65%N + str_count s 85%N + str_count s 71%N + str_count s 67%N
  = len s.
Proof.
  induction 1 as [|x s Hx _ IH]; [done|].
  apply elem_of_valid_bases in Hx. unfold len in *. simpl.
  destruct Hx as [-> | [-> | [-> | ->]]]; simpl; lia.
Qed.

Lemma base_counts_lt s c :
  c ∈ s → c ∉ valid_bases →
  str_count s 65%N + str_count s 85%N + str_count s 71%N + str_count s 67%N
  < len s.
Proof.
  intros Hc Hnb. induction Hc as [c s|c x s _ IH].
  - pose proof (base_counts_le s) as Hle. unfold len in *. simpl.
    rewrite elem_of_valid_bases in Hnb.
    repeat match goal with |- context [N.eqb ?a ?b] =>
      destruct (N.eqb_spec a b) end; subst; try tauto; lia.
  - specialize (IH Hnb). unfold len in *. simpl.
    repeat match goal with |- context [N.eqb ?a ?b] =>
      destruct (N.eqb_spec a b) end; subst; try discriminate; lia.
Qed.

Lemma startswith_app p s : startswith (p ++ s) p = true.
Proof. induction p as [|c p IH]; simpl; [done|]. by rewrite N.eqb_refl. Qed.

(** ** The repeat scan computes the longest run *)

Lemma foldl_repeat_step p prev rest st :
  foldl (repeat_step (p ++ prev :: rest)) st (seq (S (length p)) (length rest))
  = scan_from prev rest st.
Proof.
  revert p prev st. induction rest as [|c rest IH]; intros p prev st; [done|].
  simpl. replace (p ++ prev :: c :: rest) with ((p ++ [prev]) ++ c :: rest)
    by (by rewrite <- app_assoc).
  specialize (IH (p ++ [prev]) c). rewrite length_app in IH. simpl in IH.
  rewrite Nat.add_1_r in IH. rewrite IH. f_equal.
  unfold repeat_step, char_at. destruct st as [mx cur]. simpl.
  rewrite Nat.sub_0_r.
  replace (S (length p)) with (length (p ++ [prev]))
    by (rewrite length_app; simpl; lia).
  rewrite nth_middle. rewrite <- app_assoc. simpl. by rewrite nth_middle.
Qed.

Lemma scan_from_longest_run prev rest mx cur :
  1 ≤ mx → 0 ≤ cur ≤ mx →
  (scan_from prev rest (mx, cur)).1
  = Z.max mx (Z.max (cur + Z.of_nat (run_from prev rest))
                    (Z.of_nat (longest_run rest))).
Proof.
  revert prev mx cur. induction rest as [|c rest IH]; intros prev mx cur ??.
  - simpl. lia.
  - simpl. destruct (N.eqb c prev) eqn:E.
    + apply N.eqb_eq in E as ->. simpl. rewrite IH by lia. lia.
    + simpl. rewrite IH by lia. lia.
Qed.

Lemma check_repetitive_sequence_longest_run s :
  check_repetitive_sequence s = Z.of_nat (longest_run s).
Proof.
  unfold check_repetitive_sequence. destruct s as [|c s]; [done|].
  replace (len (c :: s) =? 0) with false by (unfold len; simpl; lia).
  replace (length (c :: s) - 1)%nat with (length s) by (simpl; lia).
  rewrite (foldl_repeat_step [] c s), scan_from_longest_run by lia.
  simpl longest_run. lia.
Qed.

(** [longest_run] is indeed the length of a longest block: the string has a
    block of that length, and no block of one character is longer. *)
Lemma run_from_block c s :
  s = replicate (run_from c s) c ++ drop (run_from c s) s.
Proof.
  induction s as [|x s IH]; [done|]. simpl.
  destruct (N.eqb_spec x c) as [->|]; [|done]. simpl. by rewrite <- IH.
Qed.

Lemma longest_run_block s :
  s ≠ [] → ∃ l c r, s = l ++ replicate (longest_run s) c ++ r.
Proof.
  induction s as [|c s IH]; [done|]. intros _. simpl longest_run.
  destruct (Nat.max_spec (S (run_from c s)) (longest_run s)) as [[Hlt ->]|[_ ->]].
  - destruct IH as (l & c' & r & E); [intros ->; simpl in Hlt; lia|].
    exists (c :: l), c', r. simpl. by rewrite <- E.
  - exists [], c, (drop (run_from c s) s). simpl. by rewrite <- run_from_block.
Qed.

Lemma run_from_replicate c n r : (n ≤ run_from c (replicate n c ++ r))%nat.
Proof. induction n as [|n IH]; simpl; [lia|]. rewrite N.eqb_refl. lia. Qed.

Lemma longest_run_max l c n r :
  (n ≤ longest_run (l ++ replicate n c ++ r))%nat.
Proof.
  induction l as [|x l IH]; simpl; [|lia].
  destruct n as [|n]; [lia|]. simpl.
  pose proof (run_from_replicate c n r). lia.
Qed.

(** ** Trimming and upper-casing *)

Section StringLemmas.
Context `{PyRuntime}.

Lemma upper_app l k : upper (l ++ k) = upper l ++ upper k.
Proof. unfold upper. by rewrite map_app, concat_app. Qed.

Lemma upper_fixed s : Forall (λ c, upper_char c = [c]) s → upper s = s.
Proof.
  unfold upper. induction 1 as [|c s Hc _ IH]; [done|].
  simpl. by rewrite Hc, IH.
Qed.

Lemma lstrip_split s :
  ∃ l, s = l ++ lstrip s ∧ Forall (λ c, isspace c = true) l.
Proof.
  induction s as [|c s (l & E & Hl)]; [by exists []|]. simpl.
  destruct (isspace c) eqn:Hc; [|by exists []].
  exists (c :: l). split; [by rewrite E at 1|by constructor].
Qed.

Lemma rstrip_split s :
  ∃ r, s = rstrip s ++ r ∧ Forall (λ c, isspace c = true) r.
Proof.
  induction s as [|c s (r & E & Hr)]; [by exists []|]. simpl.
  destruct (rstrip s) as [|x s'] eqn:Es.
  - destruct (isspace c) eqn:Hc.
    + exists (c :: r). split; [by rewrite E at 1|by constructor].
    + exists r. split; [by rewrite E at 1|done].
  - exists r. split; [by rewrite E at 1|done].
Qed.

Lemma strip_split s :
  ∃ l r, s = l ++ strip s ++ r
         ∧ Forall (λ c, isspace c = true) l
         ∧ Forall (λ c, isspace c = true) r.
Proof.
  destruct (lstrip_split s) as (l & E & Hl).
  destruct (rstrip_split (lstrip s)) as (r & E' & Hr).
  exists l, r. unfold strip. by rewrite <- E', <- E.
Qed.

Lemma length_lstrip s : (length (lstrip s) ≤ length s)%nat.
Proof.
  destruct (lstrip_split s) as (l & E & _). rewrite E at 2.
  rewrite length_app. lia.
Qed.

Lemma length_rstrip s : (length (rstrip s) ≤ length s)%nat.
Proof.
  destruct (rstrip_split s) as (l & E & _). rewrite E at 2.
  rewrite length_app. lia.
Qed.

Lemma rstrip_fixed s : Forall (λ c, isspace c = false) s → rstrip s = s.
Proof.
  induction 1 as [|c s Hc _ IH]; [done|]. simpl. rewrite IH, Hc.
  by destruct s.
Qed.

Lemma lstrip_fixed s : Forall (λ c, isspace c = false) s → lstrip s = s.
Proof. destruct 1 as [|c s Hc _]; [done|]. simpl. by rewrite Hc. Qed.

Lemma strip_fixed s : Forall (λ c, isspace c = false) s → strip s = s.
Proof. intros Hs. unfold strip. by rewrite lstrip_fixed, rstrip_fixed. Qed.

Lemma rstrip_snoc_space s c : isspace c = true → rstrip (s ++ [c]) = rstrip s.
Proof.
  intros Hc. induction s as [|x s IH]; simpl; [by rewrite Hc|]. by rewrite IH.
Qed.

Lemma length_lstrip_snoc s c :
  isspace c = true → (length (rstrip (lstrip (s ++ [c]))) ≤ length s)%nat.
Proof.
  intros Hc. induction s as [|x s IH]; simpl; [by rewrite Hc|].
  destruct (isspace x); [lia|].
  change (x :: s ++ [c]) with ((x :: s) ++ [c]).
  rewrite rstrip_snoc_space by done. apply length_rstrip.
Qed.

(** Trimming removes at least one character when the string starts or ends
    with whitespace. *)
Lemma length_strip_lt s :
  (∃ c, head s = Some c ∧ isspace c = true)
  ∨ (∃ c, last s = Some c ∧ isspace c = true) →
  (length (strip s) < length s)%nat.
Proof.
  unfold strip. intros [(c & Hs & Hc)|(c & Hs & Hc)].
  - apply head_Some in Hs as [s' ->]. simpl. rewrite Hc.
    pose proof (length_rstrip (lstrip s')). pose proof (length_lstrip s').
    lia.
  - apply last_Some in Hs as [s' ->].
    pose proof (length_lstrip_snoc s' c Hc). rewrite length_app. simpl. lia.
Qed.
End StringLemmas.

(** ** The validation outcome *)

Lemma gc_content_unit s :
  (min_gc_content <= calculate_gc_content s)%Q
  ∧ (calculate_gc_content s <= max_gc_content)%Q.
Proof.
  unfold calculate_gc_content, min_gc_content, max_gc_content.
  destruct (Z.eqb_spec (len s) 0) as [|Hn]; [by split|].
  pose proof (len_nonneg s). pose proof (base_counts_le s).
  pose proof (str_count_nonneg s 65%N). pose proof (str_count_nonneg s 85%N).
  pose proof (str_count_nonneg s 71%N). pose proof (str_count_nonneg s 67%N).
  apply true_div_unit; lia.
Qed.

Lemma gc_check_passes s :
  Qlt_bool (calculate_gc_content s) min_gc_content
  || Qlt_bool max_gc_content (calculate_gc_content s) = false.
Proof.
  destruct (gc_content_unit s) as [Hlo Hhi].
  apply Qle_bool_iff in Hlo, Hhi. unfold Qlt_bool. by rewrite Hlo, Hhi.
Qed.

Lemma elem_of_err_if b e x : x ∈ err_if b e ↔ b = true ∧ x = e.
Proof.
  destruct b; simpl; [rewrite list_elem_of_singleton|rewrite elem_of_nil];
    intuition congruence.
Qed.

Lemma elem_of_content_errors cleaned e :
  e ∈ content_errors cleaned ↔
    (len cleaned < min_length ∧ e = msg_too_short)
    ∨ (max_length < len cleaned ∧ e = msg_too_long)
    ∨ (str_set cleaned ∖ valid_bases ≠ ∅
       ∧ e = msg_invalid_bases (sorted (str_set cleaned ∖ valid_bases)))
    ∨ (0 < len cleaned ∧ 50 < check_repetitive_sequence cleaned
       ∧ e = msg_repetitive (check_repetitive_sequence cleaned)).
Proof.
  unfold content_errors. cbv zeta.
  rewrite !elem_of_app, !elem_of_err_if, andb_true_iff, bool_decide_eq_true,
    !Z.ltb_lt.
  tauto.
Qed.

Section ValidatorProperties.
Context `{PyRuntime}.

Lemma validate_str s :
  strip s ≠ [] →
  validate_rna_sequence (PyStr s)
  = (len (content_errors (upper (strip s))) =? 0,
     content_errors (upper (strip s))).
Proof.
  intros Hs. unfold validate_rna_sequence, content_errors, err_if.
  rewrite bool_decide_false by done. cbv zeta.
  rewrite gc_check_passes.
  destruct (len (upper (strip s)) <? min_length),
    (max_length <? len (upper (strip s))),
    (0 <? len (upper (strip s))),
    (50 <? check_repetitive_sequence (upper (strip s)));
    repeat case_bool_decide; try done; simpl; try done.
Qed.

Lemma validate_not_a_sequence v :
  not_a_sequence v →
  validate_rna_sequence v
  = (false, [match v with
             | PyNone => msg_none
             | PyObject => msg_not_string
             | PyStr _ => msg_empty
             end]).
Proof.
  destruct v as [|s|]; simpl; intros Hv; [done| |done].
  by rewrite bool_decide_true.
Qed.
End ValidatorProperties.

(** The fixed texts tell the kinds of error apart. *)
Lemma kinds_too_short :
  is_length_error msg_too_short = true ∧ is_alphabet_error msg_too_short = false
  ∧ is_repeat_error msg_too_short = false ∧ is_gc_error msg_too_short = false.
Proof. by vm_compute. Qed.

Lemma kinds_too_long :
  is_length_error msg_too_long = true ∧ is_alphabet_error msg_too_long = false
  ∧ is_repeat_error msg_too_long = false ∧ is_gc_error msg_too_long = false.
Proof. by vm_compute. Qed.

Lemma kinds_invalid_bases l :
  is_length_error (msg_invalid_bases l) = false
  ∧ is_alphabet_error (msg_invalid_bases l) = true
  ∧ is_repeat_error (msg_invalid_bases l) = false
  ∧ is_gc_error (msg_invalid_bases l) = false.
Proof.
  split_and!; [done| |done|done].
  unfold is_alphabet_error, msg_invalid_bases. apply startswith_app.
Qed.

Lemma kinds_repetitive n :
  is_length_error (msg_repetitive n) = false
  ∧ is_alphabet_error (msg_repetitive n) = false
  ∧ is_repeat_error (msg_repetitive n) = true
  ∧ is_gc_error (msg_repetitive n) = false.
Proof.
  split_and!; [done|done| |done].
  unfold is_repeat_error, msg_repetitive. apply startswith_app.
Qed.

Lemma kinds_terminal e :
  e ∈ [msg_none; msg_not_string; msg_empty] →
  is_length_error e = false ∧ is_alphabet_error e = false
  ∧ is_repeat_error e = false ∧ is_gc_error e = false.
Proof.
  rewrite !elem_of_cons, elem_of_nil. intros [->|[->|[->|[]]]]; by vm_compute.
Qed.

(** [sorted] lists a set in strictly ascending order. *)
Lemma elem_of_sorted X c : c ∈ sorted X ↔ c ∈ X.
Proof. unfold sorted. by rewrite merge_sort_Permutation, elem_of_elements. Qed.

Lemma StronglySorted_le_lt l :
  StronglySorted N.le l → NoDup l → StronglySorted N.lt l.
Proof.
  induction 1 as [|x l Hl IH Hx]; intros Hnd; [constructor|].
  apply NoDup_cons in Hnd as [Hxl Hnd]. constructor; [by apply IH|].
  rewrite Forall_forall in Hx |- *. intros y Hy.
  specialize (Hx y Hy). assert (x ≠ y) by (by intros ->). lia.
Qed.

Lemma sorted_ascending X : StronglySorted N.lt (sorted X).
Proof.
  apply StronglySorted_le_lt.
  - apply StronglySorted_merge_sort; apply _.
  - unfold sorted. rewrite merge_sort_Permutation. apply NoDup_elements.
Qed.

Lemma invalid_bases_nonempty s :
  str_set s ∖ valid_bases ≠ ∅ ↔ ∃ c, offending s c.
Proof.
  unfold offending, str_set. split.
  - intros Hne. apply set_choose_L in Hne as [c Hc]. exists c.
    set_solver.
  - intros [c [Hc Hnb]]. apply (non_empty_inhabited_L c). set_solver.
Qed.

Lemma invalid_bases_conformant s :
  conformant s → str_set s ∖ valid_bases = ∅.
Proof.
  unfold conformant, str_set. rewrite Forall_forall. intros Hs.
  apply elem_of_equiv_empty_L. intros c [Hc Hn]%elem_of_difference.
  apply Hn, Hs. by apply elem_of_list_to_set in Hc.
Qed.

Lemma kinds_gc_content `{PyRuntime} g : is_gc_error (msg_gc_content g) = true.
Proof. unfold is_gc_error, msg_gc_content. apply startswith_app. Qed.

(** Every entry of [content_errors] is recognised by its kind. *)
Lemma content_errors_kinds cleaned e :
  e ∈ content_errors cleaned →
  is_gc_error e = false
  ∧ (is_alphabet_error e = true →
     e = msg_invalid_bases (sorted (str_set cleaned ∖ valid_bases)))
  ∧ (is_repeat_error e = true →
     e = msg_repetitive (check_repetitive_sequence cleaned)).
Proof.
  rewrite elem_of_content_errors.
  intros [[_ ->]|[[_ ->]|[[_ ->]|(_ & _ & ->)]]].
  - destruct kinds_too_short as (_ & -> & -> & ->). by split_and!.
  - destruct kinds_too_long as (_ & -> & -> & ->). by split_and!.
  - by split_and!.
  - by split_and!.
Qed.

Lemma filter_err_if_False (P : str → Prop) `{∀ e, Decision (P e)} b e :
  ¬ P e → filter P (err_if b e) = [].
Proof. intros. destruct b; simpl; [|done]. by rewrite filter_cons_False. Qed.

Lemma filter_err_if_True (P : str → Prop) `{∀ e, Decision (P e)} b e :
  P e → filter P (err_if b e) = err_if b e.
Proof. intros. destruct b; simpl; [|done]. by rewrite filter_cons_True. Qed.

(** [content_errors] holds one alphabet error when a character offends, and
    none otherwise. *)
Lemma content_errors_alphabet cleaned :
  filter (λ e, is_alphabet_error e = true) (content_errors cleaned)
  = err_if (bool_decide (str_set cleaned ∖ valid_bases ≠ ∅))
           (msg_invalid_bases (sorted (str_set cleaned ∖ valid_bases))).
Proof.
  unfold content_errors. cbv zeta. rewrite !filter_app.
  rewrite (filter_err_if_False _ _ msg_too_short).
  2:{ destruct kinds_too_short as (_ & E & _). by rewrite E. }
  rewrite (filter_err_if_False _ _ msg_too_long).
  2:{ destruct kinds_too_long as (_ & E & _). by rewrite E. }
  rewrite (filter_err_if_False _ _ (msg_repetitive _)).
  2:{ destruct (kinds_repetitive (check_repetitive_sequence cleaned))
        as (_ & E & _). by rewrite E. }
  rewrite filter_err_if_True.
  2:{ destruct (kinds_invalid_bases (sorted (str_set cleaned ∖ valid_bases)))
        as (_ & E & _). exact E. }
  by rewrite app_nil_r.
Qed.

(** ** Counting dimers *)

Lemma foldl_count (P : nat → Prop) `{∀ i, Decision (P i)} l acc :
  foldl (λ count i, if bool_decide (P i) then count + 1 else count) acc l
  = acc + len (filter P l).
Proof.
  revert acc. induction l as [|i l IH]; intros acc; simpl.
  - unfold len. simpl. lia.
  - rewrite IH, filter_cons. unfold len.
    destruct (decide (P i)).
    + rewrite bool_decide_true by done. simpl. lia.
    + rewrite bool_decide_false by done. lia.
Qed.

(** No pair starts at the last position, the one the loop leaves out. *)
Lemma dimer_positions_range s dimer :
  length dimer = 2%nat →
  dimer_positions s dimer
  = filter (λ i, slice s i (i + 2) = dimer) (seq 0 (length s - 1)).
Proof.
  intros Hd. unfold dimer_positions.
  destruct (length s) as [|n] eqn:En; [done|].
  replace (S n - 1)%nat with n by lia.
  rewrite seq_S, filter_app. simpl.
  rewrite filter_cons_False, filter_nil, app_nil_r; [done|].
  intros E. apply (f_equal length) in E. revert E.
  unfold slice. rewrite length_take, length_drop. lia.
Qed.

Lemma dimer_count_positions s dimer :
  length dimer = 2%nat → dimer_count s dimer = len (dimer_positions s dimer).
Proof.
  intros Hd. unfold dimer_count. rewrite foldl_count.
  by rewrite dimer_positions_range.
Qed.

Lemma dimer_positions_bound s dimer :
  length dimer = 2%nat → len (dimer_positions s dimer) ≤ Z.max 0 (len s - 1).
Proof.
  intros Hd. rewrite dimer_positions_range by done. unfold len.
  pose proof (length_filter (λ i, slice s i (i + 2) = dimer)
                (seq 0 (length s - 1))) as Hle.
  rewrite length_seq in Hle. lia.
Qed.

Lemma dimers_length dimer : dimer ∈ dimers → length dimer = 2%nat.
Proof.
  unfold dimers. rewrite !elem_of_cons, elem_of_nil.
  intros [->|[->|[->|[->|[->|[->|[->|[->|[->|[->|[]]]]]]]]]]]; reflexivity.
Qed.

Section Claims.
Context `{PyRuntimeLaws}.

Lemma conformant_no_space s :
  conformant s → Forall (λ c, isspace c = false) s.
Proof. intros Hs. eapply Forall_impl; [done|]. apply isspace_base. Qed.

Lemma conformant_upper s : conformant s → upper s = s.
Proof.
  intros Hs. apply upper_fixed. eapply Forall_impl; [done|].
  apply upper_char_base.
Qed.

Lemma upper_nil_iff s : upper s = [] ↔ s = [].
Proof.
  split; [|by intros ->]. destruct s as [|c s]; [done|].
  unfold upper. simpl. intros E. apply app_eq_nil in E as [E _].
  by apply upper_char_nonempty in E.
Qed.

(** C2. A sequence over the alphabet A, U, G, C whose length lies between
    1 and 50000 and whose longest run of one repeated character is at most
    50 is valid, and its error list is empty. *)
Theorem validate_conformant s :
  conformant s →
  1 ≤ len s ≤ 50000 →
  (longest_run s ≤ 50)%nat →
  validate_rna_sequence (PyStr s) = (true, []).
Proof.
  intros Hs Hlen Hrun.
  assert (strip s = s) as Estrip by (by apply strip_fixed, conformant_no_space).
  assert (s ≠ []) by (intros ->; unfold len in Hlen; simpl in Hlen; lia).
  rewrite validate_str by (by rewrite Estrip).
  rewrite Estrip, conformant_upper by done.
  assert (content_errors s = []) as ->; [|done].
  apply elem_of_nil_inv. intros e.
  rewrite elem_of_content_errors, check_repetitive_sequence_longest_run,
    invalid_bases_conformant by done.
  unfold min_length, max_length. intros [?|[?|[[??]|?]]]; (done || lia).
Qed.

(** C3. For every input, [None] and values that are no strings included,
    the returned flag is true exactly when the returned error list is
    empty. *)
Theorem valid_iff_no_errors v :
  (validate_rna_sequence v).1 = true ↔ (validate_rna_sequence v).2 = [].
Proof.
  assert (not_a_sequence v ∨ ∃ s, v = PyStr s ∧ strip s ≠ []) as [Hv|(s & -> & Hs)].
  { destruct v as [|s|]; simpl; [by left| |by left].
    destruct (decide (strip s = [])); [by left|right; by exists s]. }
  - rewrite validate_not_a_sequence by done. simpl. split; discriminate.
  - rewrite validate_str by done. simpl. by rewrite Z.eqb_eq, len_nil_iff.
Qed.

(** C8. An input that is [None], no string, or empty after trimming is
    invalid with exactly one error, the one of its input shape; none of
    the length, alphabet, repeat or composition checks adds an error. *)
Theorem input_shape_terminal v :
  not_a_sequence v →
  ∃ e, validate_rna_sequence v = (false, [e])
       ∧ e ∈ [msg_none; msg_not_string; msg_empty]
       ∧ is_length_error e = false ∧ is_alphabet_error e = false
       ∧ is_repeat_error e = false ∧ is_gc_error e = false.
Proof.
  intros Hv. eexists. split; [by apply validate_not_a_sequence|].
  match goal with |- ?e ∈ ?l ∧ _ => assert (e ∈ l) as He end.
  { destruct v; rewrite !elem_of_cons; auto. }
  split; [done|]. by apply kinds_terminal.
Qed.

(** C9. The composition-range check never adds its error: the GC content
    of every string lies between the two bounds, 0.0 and 1.0, so no error
    list returned by the validator holds the GC-content-out-of-range
    message (which the predicate used here does recognise). *)
Theorem gc_error_unreachable :
  (∀ s, (min_gc_content <= calculate_gc_content s)%Q
        ∧ (calculate_gc_content s <= max_gc_content)%Q)
  ∧ (∀ g, is_gc_error (msg_gc_content g) = true)
  ∧ (∀ v e, e ∈ (validate_rna_sequence v).2 → is_gc_error e = false).
Proof.
  split; [apply gc_content_unit|]. split; [apply kinds_gc_content|].
  intros v e.
  assert (not_a_sequence v ∨ ∃ s, v = PyStr s ∧ strip s ≠ []) as [Hv|(s & -> & Hs)].
  { destruct v as [|s|]; simpl; [by left| |by left].
    destruct (decide (strip s = [])); [by left|right; by exists s]. }
  - rewrite validate_not_a_sequence by done. simpl.
    intros ->%list_elem_of_singleton. apply kinds_terminal.
    destruct v; rewrite !elem_of_cons; auto.
  - rewrite validate_str by done. simpl. intros He.
    by apply content_errors_kinds in He as [? _].
Qed.

Lemma repeat_anomaly_messages s :
  let cleaned := upper (strip s) in
  let errors := (validate_rna_sequence (PyStr s)).2 in
  cleaned ≠ [] →
  check_repetitive_sequence cleaned = Z.of_nat (longest_run cleaned)
  ∧ (msg_repetitive (Z.of_nat (longest_run cleaned)) ∈ errors
     ↔ (50 < longest_run cleaned)%nat)
  ∧ (∀ e, e ∈ errors → is_repeat_error e = true →
          e = msg_repetitive (Z.of_nat (longest_run cleaned)))
  ∧ validate_rna_sequence (PyStr (replicate 60 65%N))
    = (false, [msg_repetitive 60]).
Proof.
  intros cleaned errors Hne.
  assert (strip s ≠ []) as Hs by (by intros E; apply Hne; unfold cleaned; rewrite E).
  assert (0 < len cleaned) as Hlen.
  { pose proof (len_nonneg cleaned).
    assert (len cleaned ≠ 0) by (by rewrite len_nil_iff). lia. }
  unfold errors. rewrite validate_str by done. cbn [snd]. fold cleaned.
  split_and!.
  - apply check_repetitive_sequence_longest_run.
  - rewrite elem_of_content_errors, check_repetitive_sequence_longest_run.
    split.
    + destruct (kinds_repetitive (Z.of_nat (longest_run cleaned)))
        as (_ & Ea & Er & _).
      intros [[_ E]|[[_ E]|[[_ E]|(_ & ? & _)]]]; [..|lia].
      * apply (f_equal is_repeat_error) in E. rewrite Er in E.
        by destruct kinds_too_short as (_ & _ & Ek & _); rewrite Ek in E.
      * apply (f_equal is_repeat_error) in E. rewrite Er in E.
        by destruct kinds_too_long as (_ & _ & Ek & _); rewrite Ek in E.
      * apply (f_equal is_alphabet_error) in E. rewrite Ea in E.
        by destruct (kinds_invalid_bases
                       (sorted (str_set cleaned ∖ valid_bases)))
          as (_ & Ek & _); rewrite Ek in E.
    + intros ?. right; right; right. split_and!; [done|lia|done].
  - intros e He Hk. apply content_errors_kinds in He as (_ & _ & He).
    rewrite <- check_repetitive_sequence_longest_run. by apply He.
  - assert (conformant (replicate 60 65%N)) as Hc.
    { apply Forall_replicate. by apply elem_of_valid_bases; left. }
    assert (strip (replicate 60 65%N) = replicate 60 65%N) as E
      by (by apply strip_fixed, conformant_no_space).
    rewrite validate_str by (by rewrite E).
    rewrite E, conformant_upper by done. by vm_compute.
Qed.

(** C4. Once the normalised string is not empty the repeat scan runs,
    whether or not an alphabet error was reported: the scan returns the
    length of the longest run, and the error list holds the repeat-anomaly
    error, the fixed text followed by the decimal digits of that length,
    exactly when the longest run exceeds 50; no other error starts with
    that text. Sixty letters A are invalid, with the one error whose text
    ends in 60. *)
Theorem repeat_anomaly s :
  let cleaned := upper (strip s) in
  let errors := (validate_rna_sequence (PyStr s)).2 in
  let text := lit "An abnormal repetitive sequence was detected" in
  cleaned ≠ [] →
  check_repetitive_sequence cleaned = Z.of_nat (longest_run cleaned)
  ∧ (text ++ str_of_int (Z.of_nat (longest_run cleaned)) ∈ errors
     ↔ (50 < longest_run cleaned)%nat)
  ∧ (∀ e, e ∈ errors → startswith e text = true →
          e = text ++ str_of_int (Z.of_nat (longest_run cleaned)))
  ∧ validate_rna_sequence (PyStr (replicate 60 65%N))
    = (false, [lit "An abnormal repetitive sequence was detected60"]).
Proof. exact (repeat_anomaly_messages s). Qed.

Lemma alphabet_rejection_messages s :
  let cleaned := upper (strip s) in
  (∃ c, offending cleaned c) →
  ∃ errors bases,
    validate_rna_sequence (PyStr s) = (false, errors)
    ∧ StronglySorted N.lt bases
    ∧ (∀ c, c ∈ bases ↔ offending cleaned c)
    ∧ filter (λ e, is_alphabet_error e = true) errors
      = [msg_invalid_bases bases].
Proof.
  intros cleaned Hoff.
  assert (strip s ≠ []) as Hs.
  { intros E. destruct Hoff as (c & Hc & _). unfold cleaned in Hc.
    rewrite E in Hc. by apply elem_of_nil in Hc. }
  apply invalid_bases_nonempty in Hoff.
  assert (filter (λ e, is_alphabet_error e = true) (content_errors cleaned)
          = [msg_invalid_bases (sorted (str_set cleaned ∖ valid_bases))])
    as Hfilter.
  { rewrite content_errors_alphabet. by rewrite bool_decide_true. }
  exists (content_errors cleaned), (sorted (str_set cleaned ∖ valid_bases)).
  split_and!; [|apply sorted_ascending| |done].
  - rewrite validate_str by done. fold cleaned. f_equal.
    apply Z.eqb_neq. rewrite len_nil_iff. intros E. by rewrite E in Hfilter.
  - intros c. unfold offending, str_set.
    by rewrite elem_of_sorted, elem_of_difference, elem_of_list_to_set.
Qed.

(** C5. When the normalised sequence holds a character outside A, U, G, C
    the outcome is invalid and exactly one error starts with the text of
    the alphabet error: that text followed by the offending characters,
    each once, in ascending order, joined with a comma and a space. *)
Theorem alphabet_rejection s :
  let cleaned := upper (strip s) in
  let text := lit "Invalid bases are included: " in
  (∃ c, offending cleaned c) →
  ∃ errors bases,
    validate_rna_sequence (PyStr s) = (false, errors)
    ∧ StronglySorted N.lt bases
    ∧ (∀ c, c ∈ bases ↔ offending cleaned c)
    ∧ filter (λ e, startswith e text = true) errors
      = [text ++ str_join (lit ", ") (map (λ c, [c]) bases)].
Proof. exact (alphabet_rejection_messages s). Qed.

(** ** Statistics *)

Lemma statistics_some s :
  upper s ≠ [] →
  ∃ st, get_sequence_statistics s = Some st
    ∧ stat_length st = len (upper s)
    ∧ dict_values (stat_base_counts st)
      = [ str_count (upper s) 65%N; str_count (upper s) 85%N;
          str_count (upper s) 71%N; str_count (upper s) 67%N ]
    ∧ dict_values (stat_base_frequencies st)
      = [ true_div (str_count (upper s) 65%N) (len (upper s));
          true_div (str_count (upper s) 85%N) (len (upper s));
          true_div (str_count (upper s) 71%N) (len (upper s));
          true_div (str_count (upper s) 67%N) (len (upper s)) ]
    ∧ stat_gc_content st
      = true_div (str_count (upper s) 71%N + str_count (upper s) 67%N)
                 (len (upper s))
    ∧ stat_au_content st
      = true_div (str_count (upper s) 65%N + str_count (upper s) 85%N)
                 (len (upper s)).
Proof.
  intros Hu. unfold get_sequence_statistics.
  rewrite bool_decide_false by (by intros ->).
  destruct (Z.eqb_spec (len (upper s)) 0) as [E|_].
  { by apply len_nil_iff in E. }
  eexists. split; [reflexivity|]. by split_and!.
Qed.

Lemma dict_get_base_counts (a u g c : Z) :
  dict_get [(65%N, a); (85%N, u); (71%N, g); (67%N, c)] 65%N 0 = a
  ∧ dict_get [(65%N, a); (85%N, u); (71%N, g); (67%N, c)] 85%N 0 = u
  ∧ dict_get [(65%N, a); (85%N, u); (71%N, g); (67%N, c)] 71%N 0 = g
  ∧ dict_get [(65%N, a); (85%N, u); (71%N, g); (67%N, c)] 67%N 0 = c.
Proof. by split_and!. Qed.





Lemma elem_of_upper_space s c : c ∈ s → isspace c = true → c ∈ upper s.
Proof.
  intros (l & r & ->)%list_elem_of_split Hc.
  rewrite upper_app. unfold upper at 2. simpl.
  rewrite (upper_char_space c Hc). set_solver.
Qed.

Lemma upper_spaces l : Forall (λ c, isspace c = true) l → upper l = l.
Proof.
  intros Hl. apply upper_fixed. eapply Forall_impl; [done|].
  apply upper_char_space.
Qed.

(** C10. Statistics upper-cases but does not trim: on a non-empty string
    that starts or ends with whitespace the reported length includes the
    whitespace that trimming would remove, and the base counts add up to
    strictly less than the reported length. *)
Theorem statistics_untrimmed s :
  s ≠ [] →
  (∃ c, head s = Some c ∧ isspace c = true)
  ∨ (∃ c, last s = Some c ∧ isspace c = true) →
  ∃ st, get_sequence_statistics s = Some st
    ∧ stat_length st = len (upper s)
    ∧ stat_length st = len (upper (strip s)) + (len s - len (strip s))
    ∧ len (strip s) < len s
    ∧ sum_int (dict_values (stat_base_counts st)) < stat_length st.
Proof.
  intros Hne Hws.
  assert (∃ c, c ∈ s ∧ isspace c = true) as (c & Hc & Hsp).
  { destruct Hws as [(c & Hs & Hc)|(c & Hs & Hc)]; exists c; split; try done.
    - apply head_Some in Hs as [s' ->]. by left.
    - by apply last_Some_elem_of. }
  pose proof (elem_of_upper_space s c Hc Hsp) as Hcu.
  destruct (statistics_some s) as (st & Est & Hlen & Hcounts & _).
  { intros E. rewrite E in Hcu. by apply elem_of_nil in Hcu. }
  exists st. split; [done|]. rewrite Hlen, Hcounts. split_and!.
  - done.
  - destruct (strip_split s) as (l & r & E & Hl & Hr).
    assert (upper s = l ++ upper (strip s) ++ r) as ->.
    { rewrite E at 1.
      by rewrite !upper_app, (upper_spaces l), (upper_spaces r). }
    assert (len s = len l + (len (strip s) + len r)) as ->.
    { rewrite E at 1. by rewrite !len_app. }
    rewrite !len_app. lia.
  - pose proof (length_strip_lt s Hws). unfold len. lia.
  - unfold sum_int. simpl.
    assert (c ∉ valid_bases) as Hnb.
    { intros Hb. apply isspace_base in Hb. congruence. }
    pose proof (base_counts_lt (upper s) c Hcu Hnb). lia.
Qed.

(** ** Features *)

Lemma extract_features_nonempty_length s :
  upper s ≠ [] → length (extract_features s) = 19%nat.
Proof.
  intros Hu. unfold extract_features.
  destruct (Z.eqb_spec (len (upper s)) 0) as [E|_].
  { by apply len_nil_iff in E. }
  reflexivity.
Qed.

(** The length of the vector depends on the input: only the empty string
    gets the longer one. *)
Lemma extract_features_length s :
  length (extract_features s) = if bool_decide (s = []) then 20%nat else 19%nat.
Proof.
  case_bool_decide as Hs; [by subst|].
  apply extract_features_nonempty_length. by rewrite upper_nil_iff.
Qed.

(** C1. On the empty string the extractor returns [np.zeros(20)]: a zero
    vector, of length 20 where every other input yields the 19 values the
    feature names label. *)
Theorem extract_features_empty_length :
  extract_features [] = replicate 20 0%Q
  ∧ length (extract_features []) = 20%nat
  ∧ (∀ s, upper s ≠ [] → length (extract_features s) = 19%nat).
Proof. split_and!; [reflexivity..|apply extract_features_nonempty_length]. Qed.

(** C7. For each of the ten pairs, the feature at its place is the number
    of positions at which the pair occurs in the upper-cased sequence,
    overlaps included, divided by the length minus one, and 0 when the
    length is at most 1; it lies between 0 and 1. *)
Theorem dimer_frequency s k dimer :
  dimers !! k = Some dimer →
  let sequence := upper s in
  let occurrences := len (dimer_positions sequence dimer) in
  let freq :=
    if len sequence <=? 1 then 0%Q
    else true_div occurrences (len sequence - 1) in
  extract_features s !! (9 + k)%nat = Some freq
  ∧ (0 <= freq)%Q ∧ (freq <= 1)%Q.
Proof.
  intros Hk sequence occurrences freq.
  assert (length dimer = 2%nat) as Hd
    by (by eapply dimers_length, list_elem_of_lookup_2).
  pose proof (lookup_lt_Some _ _ _ Hk) as Hk10. simpl in Hk10.
  pose proof (dimer_positions_bound sequence dimer Hd) as Hocc.
  pose proof (len_nonneg (dimer_positions sequence dimer)) as Hocc0.
  fold occurrences in Hocc, Hocc0.
  split.
  - unfold extract_features. fold sequence.
    destruct (Z.eqb_spec (len sequence) 0) as [E|Hn].
    + unfold np_zeros. rewrite lookup_replicate_2 by lia.
      unfold freq. by rewrite E.
    + rewrite lookup_app_r by (simpl; lia). simpl length.
      replace (9 + k - 9)%nat with k by lia.
      rewrite list_lookup_fmap, Hk. simpl. f_equal.
      unfold dimer_freq, freq. rewrite dimer_count_positions by done.
      fold occurrences.
      by destruct (Z.ltb_spec 1 (len sequence)), (Z.leb_spec (len sequence) 1);
        try lia.
  - unfold freq. destruct (Z.leb_spec (len sequence) 1); [done|].
    apply true_div_unit; lia.
Qed.
End Claims.

(** ** The ASCII tables satisfy the laws *)

#[export] Instance ascii_laws : PyRuntimeLaws.
Proof.
  split.
  - intros c [-> | [-> | [-> | ->]]]%elem_of_valid_bases; reflexivity.
  - intros c [-> | [-> | [-> | ->]]]%elem_of_valid_bases; reflexivity.
  - intros c. simpl. unfold ascii_isspace, ascii_upper_char.
    destruct (N.leb_spec 97 c), (N.leb_spec c 122), (N.leb_spec 9 c),
      (N.leb_spec c 13), (N.leb_spec 28 c), (N.leb_spec c 32);
      simpl; (done || lia).
  - intros c. simpl. unfold ascii_upper_char. by case_match.
Qed.

(** ** The scenarios of the specification, on the ASCII tables *)

Example validate_augc :
  validate_rna_sequence (PyStr (lit "augc")) = (true, []).
Proof. by vm_compute. Qed.

Example validate_AUGX :
  validate_rna_sequence (PyStr (lit "AUGX"))
  = (false, [lit "Invalid bases are included: X"]).
Proof. by vm_compute. Qed.

Example validate_repeat_after_alphabet_error :
  validate_rna_sequence (PyStr (replicate 60 88%N))
  = (false, [ lit "Invalid bases are included: X";
              lit "An abnormal repetitive sequence was detected60" ]).
Proof. by vm_compute. Qed.

Example statistics_AAUUGGCC :
  get_sequence_statistics (lit "AAUUGGCC")
  = Some {| stat_length := 8;
            stat_base_counts := [(65%N, 2); (85%N, 2); (71%N, 2); (67%N, 2)];
            stat_base_frequencies :=
              [(65%N, 2 # 8); (85%N, 2 # 8); (71%N, 2 # 8); (67%N, 2 # 8)]%Q;
            stat_gc_content := (4 # 8)%Q;
            stat_au_content := (4 # 8)%Q;
            stat_max_repeat_length := 2 |}.
Proof. by vm_compute. Qed.

Example validate_zAUGXb :
  validate_rna_sequence (PyStr (lit "zAUGXb"))
  = (false, [lit "Invalid bases are included: B, X, Z"]).
Proof. by vm_compute. Qed.


(** Six characters are enough when [sum] adds from left to right: for
    UGGGGC the floats 0/6, 1/6, 4/6, 1/6 add up to 0.9999999999999999. On
    the same input GC content plus AU content is 1.0 as computed, and on
    AAUUGGCC the four frequencies, each 0.25, do add up to 1.0. *)
Example statistics_binary64_UGGGGC :
  ∃ st, get_sequence_statistics (lit "UGGGGC") = Some st
    ∧ dict_values (float_base_frequencies (statistics_binary64 st))
      = [ SpecFloat.S754_zero false;
          SpecFloat.S754_finite false 6004799503160661 (-55);
          SpecFloat.S754_finite false 6004799503160661 (-53);
          SpecFloat.S754_finite false 6004799503160661 (-55) ]
    ∧ sum_binary64
        (dict_values (float_base_frequencies (statistics_binary64 st)))
      = SpecFloat.S754_finite false 9007199254740991 (-53)
    ∧ binary64_add (float_gc_content (statistics_binary64 st))
                   (float_au_content (statistics_binary64 st))
      = binary64_of_int 1.
Proof. eexists. split; [reflexivity|]. by vm_compute. Qed.

Example statistics_binary64_AAUUGGCC :
  ∃ st, get_sequence_statistics (lit "AAUUGGCC") = Some st
    ∧ sum_binary64
        (dict_values (float_base_frequencies (statistics_binary64 st)))
      = binary64_of_int 1.
Proof. eexists. split; [reflexivity|]. by vm_compute. Qed.

Example extract_AAAA :
  Forall2 Qeq (extract_features (lit "AAAA"))
    [4; 1; 0; 0; 0; 0; 1; 1; 0; 1; 0; 0; 0; 0; 0; 0; 0; 0; 0]%Q.
Proof. vm_compute. repeat constructor. Qed.

(** ** Instances of the theorems *)

Lemma validate_conformant_witness :
  conformant (lit "AUGC")
  ∧ 1 ≤ len (lit "AUGC") ≤ 50000
  ∧ (longest_run (lit "AUGC") ≤ 50)%nat
  ∧ validate_rna_sequence (PyStr (lit "AUGC")) = (true, []).
Proof.
  assert (conformant (lit "AUGC")) as Hc
    by (repeat constructor; apply elem_of_valid_bases; auto).
  assert (1 ≤ len (lit "AUGC") ≤ 50000) as Hl by (by vm_compute).
  assert (longest_run (lit "AUGC") ≤ 50)%nat as Hr by (vm_compute; lia).
  split_and!; [done..|]. exact (validate_conformant (lit "AUGC") Hc Hl Hr).
Defined.

Lemma input_shape_terminal_witness :
  not_a_sequence (PyStr (lit "   "))
  ∧ ∃ e, validate_rna_sequence (PyStr (lit "   ")) = (false, [e])
         ∧ e ∈ [msg_none; msg_not_string; msg_empty]
         ∧ is_length_error e = false ∧ is_alphabet_error e = false
         ∧ is_repeat_error e = false ∧ is_gc_error e = false.
Proof.
  assert (not_a_sequence (PyStr (lit "   "))) as Hv by reflexivity.
  split; [done|]. exact (input_shape_terminal (PyStr (lit "   ")) Hv).
Defined.

Lemma repeat_anomaly_witness :
  upper (strip (replicate 60 88%N)) ≠ []
  ∧ lit "An abnormal repetitive sequence was detected60"
    ∈ (validate_rna_sequence (PyStr (replicate 60 88%N))).2.
Proof.
  assert (upper (strip (replicate 60 88%N)) ≠ []) as Hne by (by vm_compute).
  split; [done|].
  destruct (repeat_anomaly (replicate 60 88%N) Hne) as (_ & Hiff & _).
  assert (50 < longest_run (upper (strip (replicate 60 88%N))))%nat as Hrun
    by (vm_compute; lia).
  exact (proj2 Hiff Hrun).
Defined.

Lemma alphabet_rejection_witness :
  (∃ c, offending (upper (strip (lit "zAUGXb"))) c)
  ∧ ∃ errors bases,
      validate_rna_sequence (PyStr (lit "zAUGXb")) = (false, errors)
      ∧ StronglySorted N.lt bases
      ∧ (∀ c, c ∈ bases ↔ offending (upper (strip (lit "zAUGXb"))) c)
      ∧ filter (λ e, startswith e (lit "Invalid bases are included: ") = true)
               errors
        = [lit "Invalid bases are included: "
           ++ str_join (lit ", ") (map (λ c, [c]) bases)].
Proof.
  assert (∃ c, offending (upper (strip (lit "zAUGXb"))) c) as Hoff.
  { exists 88%N. split.
    - apply (bool_decide_unpack _). by vm_compute.
    - rewrite elem_of_valid_bases. intros [?|[?|[?|?]]]; discriminate. }
  split; [done|]. exact (alphabet_rejection (lit "zAUGXb") Hoff).
Defined.


Lemma statistics_untrimmed_witness :
  lit " AUGC" ≠ []
  ∧ (∃ c, head (lit " AUGC") = Some c ∧ isspace c = true)
  ∧ ∃ st, get_sequence_statistics (lit " AUGC") = Some st
      ∧ stat_length st = 5
      ∧ sum_int (dict_values (stat_base_counts st)) < stat_length st.
Proof.
  assert (lit " AUGC" ≠ []) as Hne by discriminate.
  assert (∃ c, head (lit " AUGC") = Some c ∧ isspace c = true) as Hws
    by (by exists 32%N).
  split_and!; [done..|].
  destruct (statistics_untrimmed (lit " AUGC") Hne (or_introl Hws))
    as (st & Est & Hlen & _ & _ & Hsum).
  exists st. by split_and!.
Defined.

Lemma dimer_frequency_witness :
  dimers !! 0%nat = Some (lit "AA")
  ∧ extract_features (lit "AAAA") !! 9%nat
    = Some (true_div (len (dimer_positions (lit "AAAA") (lit "AA"))) 3).
Proof.
  assert (dimers !! 0%nat = Some (lit "AA")) as Hk by reflexivity.
  split; [done|].
  exact (proj1 (dimer_frequency (lit "AAAA") 0 (lit "AA") Hk)).
Defined.

(** * Further properties of the validator *)

Lemma invalid_bases_empty_iff s :
  str_set s ∖ valid_bases = ∅ ↔ conformant s.
Proof.
  split; [|apply invalid_bases_conformant].
  unfold conformant, str_set. rewrite Forall_forall. intros E c Hc.
  destruct (decide (c ∈ valid_bases)) as [|Hn]; [done|].
  assert (c ∈ (list_to_set s ∖ valid_bases : gset N)) as Hin
    by (by apply elem_of_difference; rewrite elem_of_list_to_set).
  rewrite E in Hin. by apply elem_of_empty in Hin.
Qed.

Lemma accepted_iff `{PyRuntime} s :
  (validate_rna_sequence (PyStr s)).1 = true
  ↔ conformant (upper (strip s))
    ∧ 1 ≤ len (upper (strip s)) ≤ 50000
    ∧ (longest_run (upper (strip s)) ≤ 50)%nat.
Proof.
  destruct (decide (strip s = [])) as [E|Hs].
  - rewrite (validate_not_a_sequence (PyStr s)) by done. rewrite E.
    cbn [fst]. split; [done|]. intros (_ & [Hl _] & _).
    unfold len in Hl. simpl in Hl. lia.
  - rewrite validate_str by done. cbn [fst]. rewrite Z.eqb_eq, len_nil_iff.
    generalize (upper (strip s)). intros c.
    rewrite <- invalid_bases_empty_iff. split.
    + intros E.
      assert (∀ e, e ∉ content_errors c) as Hno
        by (intros e; rewrite E; apply not_elem_of_nil).
      unfold min_length, max_length in Hno.
      split_and!.
      * destruct (decide (str_set c ∖ valid_bases = ∅)) as [|Hne]; [done|].
        exfalso. eapply Hno, elem_of_content_errors. right; right; left. done.
      * destruct (Z.lt_ge_cases (len c) 1) as [Hlt|]; [|lia].
        exfalso. eapply Hno, elem_of_content_errors. by left.
      * destruct (Z.lt_ge_cases 50000 (len c)) as [Hlt|]; [|lia].
        exfalso. eapply Hno, elem_of_content_errors. right; by left.
      * destruct (Nat.le_gt_cases (longest_run c) 50) as [|Hgt]; [done|].
        exfalso. eapply Hno, elem_of_content_errors. right; right; right.
        rewrite check_repetitive_sequence_longest_run.
        assert (c ≠ []) by (intros ->; simpl in Hgt; lia).
        assert (len c ≠ 0) by (by rewrite len_nil_iff).
        pose proof (len_nonneg c). split_and!; [lia|lia|done].
    + intros (Hc & Hl & Hr). apply elem_of_nil_inv. intros e.
      rewrite elem_of_content_errors, check_repetitive_sequence_longest_run.
      unfold min_length, max_length. intros [?|[?|[[??]|?]]]; (done || lia).
Qed.

(** The validator accepts a string exactly when its normalised form is a
    sequence over A, U, G, C of 1 to 50000 characters with no run longer
    than 50. *)
Theorem validate_accepts_iff `{PyRuntime} s :
  (validate_rna_sequence (PyStr s)).1 = true
  ↔ conformant (upper (strip s))
    ∧ 1 ≤ len (upper (strip s)) ≤ 50000
    ∧ (longest_run (upper (strip s)) ≤ 50)%nat.
Proof. apply accepted_iff. Qed.

Lemma content_errors_length_kind cleaned e :
  e ∈ content_errors cleaned → is_length_error e = true →
  (len cleaned < min_length ∧ e = msg_too_short)
  ∨ (max_length < len cleaned ∧ e = msg_too_long).
Proof.
  rewrite elem_of_content_errors.
  intros [[? ->]|[[? ->]|[[_ ->]|(_ & _ & ->)]]] Hk; [by left|by right|..].
  - destruct (kinds_invalid_bases
                (sorted (str_set cleaned ∖ valid_bases))) as (E & _).
    by rewrite E in Hk.
  - destruct (kinds_repetitive (check_repetitive_sequence cleaned)) as (E & _).
    by rewrite E in Hk.
Qed.

Lemma upper_nonempty `{PyRuntimeLaws} s : s ≠ [] → upper s ≠ [].
Proof.
  destruct s as [|c s]; [done|]. intros _. unfold upper. simpl.
  intros E. apply app_eq_nil in E as [E _]. by apply upper_char_nonempty in E.
Qed.

(** The too-short error is never returned: a string that is empty after
    trimming is answered by the empty-sequence error before the length is
    looked at, so the only length error a caller can see is the too-long
    one. *)
Theorem too_short_unreachable `{PyRuntimeLaws} v :
  (msg_too_short ∉ (validate_rna_sequence v).2)
  ∧ (∀ e, e ∈ (validate_rna_sequence v).2 → is_length_error e = true →
          e = msg_too_long).
Proof.
  assert (not_a_sequence v ∨ ∃ s, v = PyStr s ∧ strip s ≠ []) as [Hv|(s & -> & Hs)].
  { destruct v as [|s|]; simpl; [by left| |by left].
    destruct (decide (strip s = [])); [by left|right; by exists s]. }
  - rewrite validate_not_a_sequence by done. cbn [snd].
    assert (∀ e, e ∈ [match v with
                      | PyNone => msg_none
                      | PyObject => msg_not_string
                      | PyStr _ => msg_empty
                      end] → is_length_error e = false) as Hk.
    { intros e ->%list_elem_of_singleton.
      assert (match v with
              | PyNone => msg_none
              | PyObject => msg_not_string
              | PyStr _ => msg_empty
              end ∈ [msg_none; msg_not_string; msg_empty]) as Hin
        by (destruct v; rewrite !elem_of_cons; auto).
      destruct (kinds_terminal _ Hin) as (E & _). exact E. }
    split.
    + intros He. apply Hk in He. destruct kinds_too_short as (E & _).
      rewrite E in He. discriminate.
    + intros e He Hl. apply Hk in He. by rewrite He in Hl.
  - rewrite validate_str by done. cbn [snd].
    assert (len (upper (strip s)) ≠ 0) as Hn
      by (by rewrite len_nil_iff; apply upper_nonempty).
    pose proof (len_nonneg (upper (strip s))).
    assert (∀ e, e ∈ content_errors (upper (strip s)) →
                 is_length_error e = true → e = msg_too_long) as Hlong.
    { intros e He Hl.
      destruct (content_errors_length_kind _ e He Hl) as [[Hlt _]|[_ ->]];
        [unfold min_length in Hlt; lia|done]. }
    split; [|done]. intros He. apply Hlong in He.
    + apply (f_equal length) in He. vm_compute in He. discriminate.
    + by destruct kinds_too_short as (E & _).
Qed.

Lemma too_short_unreachable_witness :
  msg_too_short ∉ (validate_rna_sequence (PyStr (lit "AUGC"))).2.
Proof. exact (proj1 (too_short_unreachable (PyStr (lit "AUGC")))). Defined.

(** ** Trimming *)

Lemma rstrip_idemp `{PyRuntime} s : rstrip (rstrip s) = rstrip s.
Proof.
  induction s as [|c s IH]; [done|]. simpl.
  destruct (rstrip s) as [|x r] eqn:E.
  - destruct (isspace c) eqn:Hc; [done|]. simpl. by rewrite Hc.
  - change (rstrip (c :: x :: r)) with
      (match rstrip (x :: r) with
       | [] => if isspace c then [] else [c]
       | r' => c :: r'
       end).
    by rewrite IH.
Qed.

Lemma lstrip_rstrip_lstrip `{PyRuntime} s :
  lstrip (rstrip (lstrip s)) = rstrip (lstrip s).
Proof.
  induction s as [|c s IH]; [done|]. simpl.
  destruct (isspace c) eqn:Hc; [done|]. simpl.
  destruct (rstrip s); simpl; rewrite ?Hc; simpl; by rewrite ?Hc.
Qed.

Lemma strip_idemp `{PyRuntime} s : strip (strip s) = strip s.
Proof. unfold strip. by rewrite lstrip_rstrip_lstrip, rstrip_idemp. Qed.

(** Whitespace around a sequence does not change the outcome: the validator
    answers a string as it answers the trimmed string. *)
Theorem validate_trim_invariant `{PyRuntime} s :
  validate_rna_sequence (PyStr s) = validate_rna_sequence (PyStr (strip s)).
Proof.
  destruct (decide (strip s = [])) as [E|Hs].
  - rewrite !(validate_not_a_sequence (PyStr _)); [done| |done].
    simpl. by rewrite strip_idemp.
  - rewrite !validate_str; rewrite ?strip_idemp; done.
Qed.

Lemma elem_of_str_join_singletons sep (bases : list char) c :
  c ∈ bases → c ∈ str_join sep (map (λ c, [c]) bases).
Proof.
  induction bases as [|x [|y bases] IH]; intros Hc.
  - by apply elem_of_nil in Hc.
  - exact Hc.
  - change (c ∈ [x] ++ sep ++ str_join sep (map (λ c, [c]) (y :: bases))).
    apply elem_of_cons in Hc as [->|Hc]; [set_solver|].
    rewrite !elem_of_app. right; right. by apply IH.
Qed.

(** Whitespace inside a sequence is answered as an invalid base: when the
    trimmed string still holds a whitespace character the outcome is
    invalid, and the error list holds the alphabet error, whose text after
    the fixed part joins the offending characters and holds that
    whitespace character. *)
Theorem embedded_whitespace_rejected `{PyRuntimeLaws} s c :
  c ∈ strip s →
  isspace c = true →
  ∃ errors bases,
    validate_rna_sequence (PyStr s) = (false, errors)
    ∧ (∀ x, x ∈ bases ↔ offending (upper (strip s)) x)
    ∧ c ∈ bases
    ∧ c ∈ str_join (lit ", ") (map (λ c, [c]) bases)
    ∧ lit "Invalid bases are included: "
      ++ str_join (lit ", ") (map (λ c, [c]) bases) ∈ errors.
Proof.
  intros Hc Hsp.
  assert (strip s ≠ []) as Hs by (intros E; rewrite E in Hc; by apply elem_of_nil in Hc).
  assert (offending (upper (strip s)) c) as Hoff.
  { split; [by apply elem_of_upper_space|].
    intros Hb. apply isspace_base in Hb. congruence. }
  assert (str_set (upper (strip s)) ∖ valid_bases ≠ ∅) as Hne
    by (apply invalid_bases_nonempty; by exists c).
  assert (msg_invalid_bases (sorted (str_set (upper (strip s)) ∖ valid_bases))
          ∈ content_errors (upper (strip s))) as Hin.
  { apply elem_of_content_errors. right; right; left. by split. }
  assert (∀ x, x ∈ sorted (str_set (upper (strip s)) ∖ valid_bases)
               ↔ offending (upper (strip s)) x) as Hbases.
  { intros x. unfold offending, str_set.
    by rewrite elem_of_sorted, elem_of_difference, elem_of_list_to_set. }
  exists (content_errors (upper (strip s))),
    (sorted (str_set (upper (strip s)) ∖ valid_bases)).
  split_and!; [|done| | |exact Hin].
  - rewrite validate_str by done. f_equal. apply Z.eqb_neq.
    rewrite len_nil_iff. intros E. rewrite E in Hin. by apply elem_of_nil in Hin.
  - by apply Hbases.
  - by apply elem_of_str_join_singletons, Hbases.
Qed.

Lemma embedded_whitespace_rejected_witness :
  32%N ∈ strip (lit "AU GC")
  ∧ isspace 32%N = true
  ∧ ∃ errors bases,
      validate_rna_sequence (PyStr (lit "AU GC")) = (false, errors)
      ∧ (∀ x, x ∈ bases ↔ offending (upper (strip (lit "AU GC"))) x)
      ∧ 32%N ∈ bases
      ∧ 32%N ∈ str_join (lit ", ") (map (λ c, [c]) bases)
      ∧ lit "Invalid bases are included: "
        ++ str_join (lit ", ") (map (λ c, [c]) bases) ∈ errors.
Proof.
  assert (32%N ∈ strip (lit "AU GC")) as Hc
    by (apply (bool_decide_unpack _); by vm_compute).
  assert (isspace 32%N = true) as Hsp by reflexivity.
  split_and!; [done..|].
  exact (embedded_whitespace_rejected (lit "AU GC") 32%N Hc Hsp).
Defined.

(** ** The repeat scan *)

Lemma run_from_le c s : (run_from c s ≤ length s)%nat.
Proof.
  induction s as [|x s IH]; simpl; [lia|]. destruct (N.eqb x c); lia.
Qed.

Lemma longest_run_le s : (longest_run s ≤ length s)%nat.
Proof.
  induction s as [|c s IH]; simpl; [lia|]. pose proof (run_from_le c s). lia.
Qed.

Lemma longest_run_pos s : s ≠ [] → (1 ≤ longest_run s)%nat.
Proof. destruct s; [done|]. simpl. lia. Qed.

(** The scan returns the length of a longest block of one repeated
    character: a non-empty string holds a block of that length, and every
    block of one character in it is at most that long. *)
Theorem check_repetitive_sequence_spec s :
  (s ≠ [] →
   ∃ l c r,
     s = l ++ replicate (Z.to_nat (check_repetitive_sequence s)) c ++ r)
  ∧ (∀ l c n r,
       s = l ++ replicate n c ++ r →
       Z.of_nat n ≤ check_repetitive_sequence s).
Proof.
  rewrite check_repetitive_sequence_longest_run, Nat2Z.id. split.
  - apply longest_run_block.
  - intros l c n r ->. pose proof (longest_run_max l c n r). lia.
Qed.

(** The scan returns 0 on the empty string only, otherwise at least 1 and
    at most the length, and the length itself exactly when all characters
    are the same. *)
Theorem check_repetitive_sequence_bounds s :
  (check_repetitive_sequence s = 0 ↔ s = [])
  ∧ (s ≠ [] → 1 ≤ check_repetitive_sequence s)
  ∧ check_repetitive_sequence s ≤ len s
  ∧ (check_repetitive_sequence s = len s ↔ ∃ c, s = replicate (length s) c).
Proof.
  rewrite check_repetitive_sequence_longest_run. unfold len.
  pose proof (longest_run_le s) as Hle. split_and!.
  - split; [|by intros ->]. intros E. destruct s as [|c s]; [done|].
    pose proof (longest_run_pos (c :: s) ltac:(done)). lia.
  - intros Hs. pose proof (longest_run_pos s Hs). lia.
  - lia.
  - split.
    + intros E. apply Nat2Z.inj in E. destruct s as [|x s]; [by exists 0%N|].
      destruct (longest_run_block (x :: s)) as (l & c & r & Hs); [done|].
      rewrite E in Hs. exists c.
      assert (length l = 0 ∧ length r = 0)%nat as [Hl Hr].
      { apply (f_equal length) in Hs.
        rewrite !length_app, length_replicate in Hs. lia. }
      apply length_zero_iff_nil in Hl, Hr. subst l r.
      by rewrite app_nil_l, app_nil_r in Hs.
    + intros [c E].
      pose proof (longest_run_max [] c (length s) []) as Hmax.
      rewrite app_nil_l, app_nil_r, <- E in Hmax. lia.
Qed.

Lemma longest_run_mono s t :
  (∀ l c n r, s = l ++ replicate n c ++ r →
              ∃ l' r', t = l' ++ replicate n c ++ r') →
  (longest_run s ≤ longest_run t)%nat.
Proof.
  intros Hst. destruct s as [|x s]; [simpl; lia|].
  destruct (longest_run_block (x :: s)) as (l0 & c & r0 & E); [done|].
  destruct (Hst _ _ _ _ E) as (l' & r' & ->). apply longest_run_max.
Qed.

Lemma longest_run_infix l m r :
  (longest_run m ≤ longest_run (l ++ m ++ r))%nat.
Proof.
  apply longest_run_mono. intros l0 c n r0 ->. exists (l ++ l0), (r0 ++ r).
  by rewrite <- !app_assoc.
Qed.

Lemma longest_run_reverse s : longest_run (reverse s) = longest_run s.
Proof.
  assert (∀ s, (longest_run s ≤ longest_run (reverse s))%nat) as Hrev.
  { intros s'. apply longest_run_mono. intros l0 c n r0 ->.
    exists (reverse r0), (reverse l0).
    rewrite !reverse_app, reverse_replicate. by rewrite <- app_assoc. }
  pose proof (Hrev s). pose proof (Hrev (reverse s)) as Hrev'.
  rewrite reverse_involutive in Hrev'. lia.
Qed.

(** Characters added in front or behind never lower the result, and the
    result is the same on the reversed string. *)
Theorem check_repetitive_sequence_infix l m r :
  check_repetitive_sequence m ≤ check_repetitive_sequence (l ++ m ++ r)
  ∧ check_repetitive_sequence (reverse m) = check_repetitive_sequence m.
Proof.
  rewrite !check_repetitive_sequence_longest_run, longest_run_reverse.
  split; [|done]. apply inj_le, longest_run_infix.
Qed.

(** ** Statistics *)

Lemma true_div_eq_1 a n : 0 < n → (true_div a n == 1)%Q ↔ a = n.
Proof.
  intros Hn. split; [|intros ->; apply true_div_self; lia].
  unfold true_div. intros E. apply inject_Z_injective.
  assert (¬ (inject_Z n == 0)%Q) as Hq
    by (rewrite (inject_Z_injective n 0); lia).
  rewrite <- (Qmult_div_r (inject_Z a) (inject_Z n) Hq), E.
  apply Qmult_1_r.
Qed.

Lemma base_counts_eq_iff s :
  str_count s 65%N + str_count s 85%N + str_count s 71%N + str_count s 67%N
  = len s ↔ conformant s.
Proof.
  split; [|apply base_counts_conformant]. intros E.
  destruct (decide (conformant s)) as [|Hn]; [done|].
  apply not_Forall_Exists in Hn; [|apply _].
  apply Exists_exists in Hn as (c & Hc & Hnb).
  pose proof (base_counts_lt s c Hc Hnb). lia.
Qed.

Lemma statistics_some_inv `{PyRuntime} s st :
  get_sequence_statistics s = Some st → upper s ≠ [].
Proof.
  unfold get_sequence_statistics. case_bool_decide; [done|].
  destruct (Z.eqb_spec (len (upper s)) 0) as [|Hn]; [done|].
  intros _ E. by rewrite E in Hn.
Qed.

(** Whatever the characters of the input, the statistics stay within their
    ranges: the longest run is between 1 and the length, the base counts
    add up to at most the length, every frequency and both contents lie in
    the unit interval, and GC plus AU content is at most 1. The counts
    reach the length, and the two contents 1, exactly when the upper-cased
    input is a sequence over A, U, G, C. *)
Theorem statistics_invariants `{PyRuntime} s st :
  get_sequence_statistics s = Some st →
  1 ≤ stat_max_repeat_length st ≤ stat_length st
  ∧ sum_int (dict_values (stat_base_counts st)) ≤ stat_length st
  ∧ (sum_int (dict_values (stat_base_counts st)) = stat_length st
     ↔ conformant (upper s))
  ∧ Forall (λ f, (0 <= f)%Q ∧ (f <= 1)%Q)
           (dict_values (stat_base_frequencies st))
  ∧ (0 <= stat_gc_content st)%Q ∧ (0 <= stat_au_content st)%Q
  ∧ (stat_gc_content st + stat_au_content st <= 1)%Q
  ∧ ((stat_gc_content st + stat_au_content st == 1)%Q
     ↔ conformant (upper s)).
Proof.
  intros Est. pose proof (statistics_some_inv s st Est) as Hu.
  destruct (statistics_some s Hu) as (st' & Est' & Hlen & Hc & Hf & Hgc & Hau).
  assert (st' = st) as -> by congruence.
  assert (stat_max_repeat_length st = check_repetitive_sequence (upper s)) as Hmax.
  { revert Est. unfold get_sequence_statistics. case_bool_decide; [done|].
    destruct (len (upper s) =? 0); [done|]. by intros [= <-]. }
  rewrite Hlen, Hc, Hf, Hgc, Hau, Hmax. clear Est Est' Hlen Hc Hf Hgc Hau Hmax.
  generalize dependent (upper s). intros u Hu.
  pose proof (base_counts_le u) as Hle.
  pose proof (str_count_nonneg u 65%N). pose proof (str_count_nonneg u 85%N).
  pose proof (str_count_nonneg u 71%N). pose proof (str_count_nonneg u 67%N).
  assert (0 < len u) as Hn.
  { pose proof (len_nonneg u). assert (len u ≠ 0) by (by rewrite len_nil_iff).
    lia. }
  assert (1 ≤ check_repetitive_sequence u ≤ len u) as [Hlo Hhi].
  { rewrite check_repetitive_sequence_longest_run. unfold len.
    pose proof (longest_run_pos u Hu). pose proof (longest_run_le u). lia. }
  assert (sum_int [str_count u 65%N; str_count u 85%N;
                   str_count u 71%N; str_count u 67%N]
          = str_count u 65%N + str_count u 85%N
            + str_count u 71%N + str_count u 67%N) as ->
    by (unfold sum_int; simpl; lia).
  assert ((true_div (str_count u 71%N + str_count u 67%N) (len u)
           + true_div (str_count u 65%N + str_count u 85%N) (len u)
           == true_div (str_count u 65%N + str_count u 85%N
                        + str_count u 71%N + str_count u 67%N) (len u))%Q)
    as Esum.
  { rewrite true_div_split by lia. by f_equiv; lia. }
  split_and!.
  - done.
  - done.
  - done.
  - apply base_counts_eq_iff.
  - repeat constructor; apply true_div_unit; lia.
  - apply true_div_unit; lia.
  - apply true_div_unit; lia.
  - rewrite Esum. apply true_div_unit; lia.
  - rewrite Esum, true_div_eq_1 by done. apply base_counts_eq_iff.
Qed.

Lemma statistics_invariants_witness :
  ∃ st, get_sequence_statistics (lit " augx") = Some st
        ∧ 1 ≤ stat_max_repeat_length st ≤ stat_length st
        ∧ sum_int (dict_values (stat_base_counts st)) ≤ stat_length st.
Proof.
  assert (∃ st, get_sequence_statistics (lit " augx") = Some st) as [st Est]
    by (eexists; reflexivity).
  exists st. split; [exact Est|].
  destruct (statistics_invariants (lit " augx") st Est) as (? & ? & _).
  by split.
Defined.

(** The statistics are empty for the empty string only. *)
Theorem statistics_none_iff `{PyRuntimeLaws} s :
  get_sequence_statistics s = None ↔ s = [].
Proof.
  split; [|by intros ->]. intros E.
  destruct (decide (s = [])) as [|Hs]; [done|].
  destruct (statistics_some s (upper_nonempty s Hs)) as (st & Est & _).
  congruence.
Qed.

Lemma statistics_none_iff_witness :
  get_sequence_statistics (lit "") = None ↔ lit "" = [].
Proof. exact (statistics_none_iff (lit "")). Defined.

(** The longest run the statistics report is at least the one the validator
    checks: statistics scan the untrimmed string. *)
Theorem statistics_repeat_untrimmed `{PyRuntimeLaws} s st :
  get_sequence_statistics s = Some st →
  check_repetitive_sequence (upper (strip s)) ≤ stat_max_repeat_length st.
Proof.
  intros Est.
  assert (stat_max_repeat_length st = check_repetitive_sequence (upper s)) as ->.
  { revert Est. unfold get_sequence_statistics. case_bool_decide; [done|].
    destruct (len (upper s) =? 0); [done|]. by intros [= <-]. }
  destruct (strip_split s) as (l & r & E & Hl & Hr).
  assert (upper s = l ++ upper (strip s) ++ r) as ->.
  { rewrite E at 1.
    by rewrite !upper_app, (upper_spaces l), (upper_spaces r). }
  rewrite !check_repetitive_sequence_longest_run.
  apply inj_le, longest_run_infix.
Qed.

Lemma statistics_repeat_untrimmed_witness :
  ∃ st, get_sequence_statistics (lit "  AU") = Some st
        ∧ check_repetitive_sequence (upper (strip (lit "  AU")))
          ≤ stat_max_repeat_length st.
Proof.
  assert (∃ st, get_sequence_statistics (lit "  AU") = Some st) as [st Est]
    by (eexists; reflexivity).
  exists st. split; [exact Est|].
  exact (statistics_repeat_untrimmed (lit "  AU") st Est).
Defined.

(** ** The feature vector *)

Lemma dimer_freq_unit s dimer :
  length dimer = 2%nat →
  (0 <= dimer_freq s dimer)%Q ∧ (dimer_freq s dimer <= 1)%Q.
Proof.
  intros Hd. unfold dimer_freq. rewrite dimer_count_positions by done.
  pose proof (dimer_positions_bound s dimer Hd).
  pose proof (len_nonneg (dimer_positions s dimer)).
  destruct (Z.ltb_spec 1 (len s)); [|done]. apply true_div_unit; lia.
Qed.

(** Every feature but the first, the length, lies between 0 and 1; so do
    all twenty zeros returned for the empty string. *)
Theorem features_unit_interval `{PyRuntime} s :
  Forall (λ x, (0 <= x)%Q ∧ (x <= 1)%Q) (drop 1 (extract_features s)).
Proof.
  unfold extract_features. generalize (upper s). intros u.
  destruct (Z.eqb_spec (len u) 0) as [|Hn].
  { apply Forall_drop, Forall_replicate. done. }
  pose proof (base_counts_le u) as Hle. pose proof (len_nonneg u).
  pose proof (str_count_nonneg u 65%N). pose proof (str_count_nonneg u 85%N).
  pose proof (str_count_nonneg u 71%N). pose proof (str_count_nonneg u 67%N).
  cbn [app drop].
  repeat (apply Forall_cons; split; [apply true_div_unit; lia|]).
  apply Forall_fmap, Forall_forall. intros dimer Hd.
  by apply dimer_freq_unit, dimers_length.
Qed.

(** The features at indices 1 to 8 are the quotients by the length of the
    four base counts and of the sums G+C, A+U, A+G and U+C of two of them.
    The four counts add up to at most the length, and to the length
    exactly when the upper-cased input is a sequence over A, U, G, C. *)
Theorem features_composition `{PyRuntime} s :
  upper s ≠ [] →
  let sequence := upper s in
  let a_count := str_count sequence 65%N in
  let u_count := str_count sequence 85%N in
  let g_count := str_count sequence 71%N in
  let c_count := str_count sequence 67%N in
  take 8 (drop 1 (extract_features s))
  = map (λ count, true_div count (len sequence))
        [ a_count; u_count; g_count; c_count;
          g_count + c_count; a_count + u_count;
          a_count + g_count; u_count + c_count ]
  ∧ 0 ≤ a_count ∧ 0 ≤ u_count ∧ 0 ≤ g_count ∧ 0 ≤ c_count
  ∧ a_count + u_count + g_count + c_count ≤ len sequence
  ∧ (a_count + u_count + g_count + c_count = len sequence
     ↔ conformant sequence).
Proof.
  intros Hu. unfold extract_features. generalize dependent (upper s).
  intros u Hu. cbn zeta.
  destruct (Z.eqb_spec (len u) 0) as [E|_].
  { by apply len_nil_iff in E. }
  split_and!; [done|apply str_count_nonneg..| |].
  - apply base_counts_le.
  - apply base_counts_eq_iff.
Qed.

Lemma features_composition_witness :
  upper (lit "AUGX") ≠ []
  ∧ str_count (upper (lit "AUGX")) 65%N + str_count (upper (lit "AUGX")) 85%N
    + str_count (upper (lit "AUGX")) 71%N + str_count (upper (lit "AUGX")) 67%N
    ≤ len (upper (lit "AUGX")).
Proof.
  assert (upper (lit "AUGX") ≠ []) as Hu by (by vm_compute).
  split; [exact Hu|].
  destruct (features_composition (lit "AUGX") Hu) as (_ & _ & _ & _ & _ & Hle & _).
  exact Hle.
Defined.

Lemma sum_list_with_plus {A} (f g : A → nat) l :
  sum_list_with (λ x, f x + g x)%nat l
  = (sum_list_with f l + sum_list_with g l)%nat.
Proof. induction l as [|x l IH]; simpl; lia. Qed.

Lemma sum_list_with_ext {A} (f g : A → nat) l :
  (∀ x, f x = g x) → sum_list_with f l = sum_list_with g l.
Proof. intros E. induction l as [|x l IH]; simpl; [done|]. by rewrite E, IH. Qed.

Lemma sum_list_with_indicator {A} `{EqDecision A} (y : A) ds :
  NoDup ds →
  (sum_list_with (λ d, if decide (y = d) then 1 else 0) ds ≤ 1)%nat.
Proof.
  induction 1 as [|d ds Hd _ IH]; simpl; [lia|].
  destruct (decide (y = d)) as [->|]; [|lia].
  assert (sum_list_with (λ d', if decide (d = d') then 1%nat else 0%nat) ds
          = 0%nat) as ->; [|lia].
  clear IH. induction ds as [|x ds IH]; simpl; [done|].
  apply not_elem_of_cons in Hd as [? ?]. rewrite decide_False by done.
  by rewrite IH.
Qed.

(** Values that are pairwise different are found at different places. *)
Lemma filter_count_sum {A} `{EqDecision A} (f : nat → A) ds l :
  NoDup ds →
  (sum_list_with (λ d, length (filter (λ i, f i = d) l)) ds ≤ length l)%nat.
Proof.
  intros Hnd. induction l as [|i l IH].
  - rewrite (sum_list_with_ext _ (λ _, 0%nat)) by done.
    clear. induction ds; simpl in *; lia.
  - rewrite (sum_list_with_ext _
               (λ d, (if decide (f i = d) then 1 else 0)
                     + length (filter (λ i, f i = d) l))%nat).
    + rewrite sum_list_with_plus.
      pose proof (sum_list_with_indicator (f i) ds Hnd). simpl. lia.
    + intros d. rewrite filter_cons. by destruct (decide (f i = d)).
Qed.

Lemma dimers_NoDup : NoDup dimers.
Proof. apply (bool_decide_unpack _). by vm_compute. Qed.

Lemma sum_dimer_counts u ds acc :
  foldl Z.add acc (map (dimer_count u) ds)
  = acc + Z.of_nat (sum_list_with
            (λ d, length (filter (λ i, slice u i (i + 2) = d)
                                 (seq 0 (length u - 1)))) ds).
Proof.
  revert acc. induction ds as [|d ds IH]; intros acc.
  - simpl. lia.
  - cbn [map foldl sum_list_with]. rewrite IH. unfold dimer_count.
    rewrite foldl_count. unfold len. lia.
Qed.

(** The features at indices 9 to 18 are the ten dimer frequencies, in the
    order of the ten pairs, and the ten dimer counts add up to at most the
    number of positions, the length minus 1: a position holds at most one
    of the ten pairs. *)
Theorem dimer_counts_sum `{PyRuntime} s :
  let sequence := upper s in
  take 10 (drop 9 (extract_features s)) = map (dimer_freq sequence) dimers
  ∧ Forall (λ dimer, 0 ≤ dimer_count sequence dimer) dimers
  ∧ sum_int (map (dimer_count sequence) dimers) ≤ Z.max 0 (len sequence - 1).
Proof.
  unfold extract_features. generalize (upper s). intros u. cbn zeta.
  split_and!.
  - destruct (Z.eqb_spec (len u) 0) as [E|Hn].
    + apply len_nil_iff in E. by rewrite E.
    + cbn [app drop]. rewrite drop_0. apply take_ge.
      rewrite length_map. unfold dimers. simpl. lia.
  - apply Forall_forall. intros dimer Hd.
    rewrite dimer_count_positions by (by apply dimers_length).
    apply len_nonneg.
  - unfold sum_int. rewrite sum_dimer_counts.
    pose proof (filter_count_sum (λ i, slice u i (i + 2)) dimers
                  (seq 0 (length u - 1)) dimers_NoDup) as Hsum.
    rewrite length_seq in Hsum. unfold len. lia.
Qed.

(** On a string with statistics, the features repeat them: the first is the
    length, the next four the base frequencies, then GC and AU content. *)
Theorem features_match_statistics `{PyRuntime} s st :
  get_sequence_statistics s = Some st →
  extract_features s !! 0%nat = Some (inject_Z (stat_length st))
  ∧ take 4 (drop 1 (extract_features s))
    = dict_values (stat_base_frequencies st)
  ∧ extract_features s !! 5%nat = Some (stat_gc_content st)
  ∧ extract_features s !! 6%nat = Some (stat_au_content st).
Proof.
  intros Est. pose proof (statistics_some_inv s st Est) as Hu.
  destruct (statistics_some s Hu) as (st' & Est' & Hlen & _ & Hf & Hgc & Hau).
  assert (st' = st) as -> by congruence.
  rewrite Hlen, Hf, Hgc, Hau. unfold extract_features.
  destruct (Z.eqb_spec (len (upper s)) 0) as [E|_].
  { by apply len_nil_iff in E. }
  by split_and!.
Qed.

Lemma features_match_statistics_witness :
  ∃ st, get_sequence_statistics (lit "AUGX") = Some st
        ∧ extract_features (lit "AUGX") !! 5%nat = Some (stat_gc_content st).
Proof.
  assert (∃ st, get_sequence_statistics (lit "AUGX") = Some st) as [st Est]
    by (eexists; reflexivity).
  exists st. split; [exact Est|].
  exact (proj1 (proj2 (proj2 (features_match_statistics (lit "AUGX") st Est)))).
Defined.

(** The labels of [get_feature_importance] are pairwise different, so the
    dictionary zipped from them loses none, and there is one label for each
    feature of a non-empty sequence, the dimer labels in the order of the
    dimer features. *)
Theorem feature_names_match `{PyRuntime} s :
  upper s ≠ [] →
  NoDup feature_names
  ∧ length feature_names = length (extract_features s)
  ∧ ∀ k dimer, dimers !! k = Some dimer →
      feature_names !! (9 + k)%nat = Some (dimer ++ lit "_freq")
      ∧ extract_features s !! (9 + k)%nat = Some (dimer_freq (upper s) dimer).
Proof.
  intros Hu. split_and!.
  - apply (bool_decide_unpack _). by vm_compute.
  - by rewrite extract_features_nonempty_length.
  - intros k dimer Hk. unfold feature_names, extract_features.
    destruct (Z.eqb_spec (len (upper s)) 0) as [E|_].
    { by apply len_nil_iff in E. }
    rewrite !lookup_app_r by (simpl; lia). simpl length.
    replace (9 + k - 9)%nat with k by lia.
    by rewrite !list_lookup_fmap, Hk.
Qed.

Lemma feature_names_match_witness :
  upper (lit "AUGC") ≠ []
  ∧ length feature_names = length (extract_features (lit "AUGC")).
Proof.
  assert (upper (lit "AUGC") ≠ []) as Hu by (by vm_compute).
  split; [exact Hu|].
  exact (proj1 (proj2 (feature_names_match (lit "AUGC") Hu))).
Defined.

(** ** Names, parameters and metadata *)

Lemma re_search_class_true class s :
  re_search_class class s = true ↔ ∃ c, c ∈ s ∧ c ∈ class.
Proof.
  unfold re_search_class. rewrite existsb_exists. split.
  - intros (c & Hc & Hin). exists c. split; [by apply list_elem_of_In|].
    by apply bool_decide_eq_true in Hin.
  - intros (c & Hc & Hin). exists c. split; [by apply list_elem_of_In|].
    by apply bool_decide_eq_true.
Qed.

(** A name is accepted exactly when it is [None], blank, or at most 100
    characters long, the surrounding whitespace counted, with none of the
    eight characters of the pattern; a value that is no string is refused.
    The flag is true exactly when no error is returned. *)
Theorem validate_sequence_name_accepts `{PyRuntime} name :
  ((validate_sequence_name name).1 = true ↔ name_ok name)
  ∧ ((validate_sequence_name name).1 = true
     ↔ (validate_sequence_name name).2 = []).
Proof.
  destruct name as [|name|]; simpl; [by split| |by split].
  destruct (Z.eqb_spec (len (strip name)) 0) as [E|Hn].
  { apply len_nil_iff in E. simpl. split; [|done]. split; [by left|done]. }
  assert (strip name ≠ []) as Hs by (by rewrite <- len_nil_iff).
  assert (re_search_class name_class name = false
          ↔ ∀ c, c ∈ name → c ∉ name_class) as Hre.
  { rewrite <- not_true_iff_false, re_search_class_true. split.
    - intros Hno c Hc Hin. apply Hno. by exists c.
    - intros Hall (c & Hc & Hin). by apply (Hall c). }
  destruct (Z.ltb_spec 100 (len name)) as [Hlen|Hlen],
    (re_search_class name_class name) eqn:Ere; simpl; split;
    try (split; [done|]); try (split; [|done]); try done.
  - intros [?|[? _]]; [done|lia].
  - intros [?|[? _]]; [done|lia].
  - intros [?|[_ Hall]]; [done|]. by apply Hre in Hall.
  - intros _. right. split; [lia|]. by apply Hre.
Qed.

Lemma Qle_bool_inject_Z n m : Qle_bool (inject_Z n) (inject_Z m) = (n <=? m).
Proof. unfold Qle_bool, inject_Z. simpl. by rewrite !Z.mul_1_r. Qed.

Lemma Qlt_bool_inject_Z n m : Qlt_bool (inject_Z n) (inject_Z m) = (n <? m).
Proof. unfold Qlt_bool. by rewrite Qle_bool_inject_Z, Z.ltb_antisym. Qed.

Lemma top_k_check top_k :
  negb (isinstance_int top_k)
  || float_le (as_float top_k) (Finite 0)
  || float_lt (Finite 100) (as_float top_k) = false
  ↔ top_k_ok top_k.
Proof.
  destruct top_k as [n|b|x|]; simpl; [| |done|done].
  - change 0%Q with (inject_Z 0). change 100%Q with (inject_Z 100).
    rewrite Qle_bool_inject_Z, Qlt_bool_inject_Z, orb_false_iff,
      Z.leb_gt, Z.ltb_ge. lia.
  - by destruct b.
Qed.

Lemma threshold_check threshold :
  negb (isinstance_int_float threshold)
  || float_lt (as_float threshold) (Finite 0)
  || float_lt (Finite 1) (as_float threshold) = false
  ↔ threshold_ok threshold.
Proof.
  destruct threshold as [n|b|[q| | |]|]; simpl; try done.
  - change 0%Q with (inject_Z 0). change 1%Q with (inject_Z 1).
    rewrite !Qlt_bool_inject_Z, orb_false_iff, !Z.ltb_ge. lia.
  - by destruct b.
  - unfold Qlt_bool.
    rewrite orb_false_iff, !negb_false_iff, !Qle_bool_iff. tauto.
Qed.

(** The two parameter checks agree: each accepts exactly an integer [top_k]
    from 1 to 100 with a threshold that is a number neither below 0 nor
    above 1, they return the same number of errors, and the flag is true
    exactly when no error is returned. *)
Theorem validate_params_accept top_k threshold :
  ((validate_classification_params top_k threshold).1 = true
   ↔ top_k_ok top_k ∧ threshold_ok threshold)
  ∧ (validate_search_params top_k threshold).1
    = (validate_classification_params top_k threshold).1
  ∧ length (validate_search_params top_k threshold).2
    = length (validate_classification_params top_k threshold).2
  ∧ ((validate_classification_params top_k threshold).1 = true
     ↔ (validate_classification_params top_k threshold).2 = []).
Proof.
  rewrite <- top_k_check, <- threshold_check.
  unfold validate_classification_params, validate_search_params.
  destruct (negb (isinstance_int top_k)
            || float_le (as_float top_k) (Finite 0)
            || float_lt (Finite 100) (as_float top_k)),
    (negb (isinstance_int_float threshold)
     || float_lt (as_float threshold) (Finite 0)
     || float_lt (Finite 1) (as_float threshold)); simpl;
    intuition congruence.
Qed.

Lemma metadata_step_app errors item :
  metadata_step errors item = errors ++ metadata_step [] item.
Proof.
  unfold metadata_step. destruct item as [key value].
  destruct (negb _), (100 <? len (str_of_key key)),
    (match value with PyStr v => 1000 <? len v | _ => false end);
    rewrite ?app_nil_l, ?app_nil_r, <- ?app_assoc; done.
Qed.

Lemma foldl_metadata_step errors items :
  foldl metadata_step errors items
  = errors ++ concat (map (metadata_step []) items).
Proof.
  revert errors. induction items as [|item items IH]; intros errors; simpl.
  - by rewrite app_nil_r.
  - by rewrite IH, metadata_step_app, <- app_assoc.
Qed.

Lemma metadata_step_nil_iff item : metadata_step [] item = [] ↔ item_ok item.
Proof.
  unfold metadata_step, item_ok. destruct item as [[key|text] value].
  - cbn [negb str_of_key].
    destruct (Z.ltb_spec 100 (len key)), value as [|v|];
      try destruct (Z.ltb_spec 1000 (len v)); simpl; split;
      try done; try lia; try (intros [??]; lia).
  - cbn [negb]. split; [|done].
    destruct (100 <? len (str_of_key (KeyObject text))),
      (match value with PyStr v => 1000 <? len v | _ => false end); done.
Qed.

(** Metadata is accepted exactly when it is [None], or a dictionary in
    which every key is a string of at most 100 characters and every string
    value has at most 1000 characters. Every item is judged on its own: the
    errors returned for a dictionary are those of its first items followed
    by those of the remaining ones. *)
Theorem validate_metadata_accepts metadata :
  ((validate_metadata metadata).1 = true
   ↔ match metadata with
     | MetaNone => True
     | MetaDict items => Forall item_ok items
     | MetaObject => False
     end)
  ∧ (∀ items more,
       (validate_metadata (MetaDict (items ++ more))).2
       = (validate_metadata (MetaDict items)).2
         ++ (validate_metadata (MetaDict more)).2).
Proof.
  split.
  - destruct metadata as [|items|]; simpl; [done| |done].
    rewrite Z.eqb_eq, len_nil_iff, foldl_metadata_step, app_nil_l.
    induction items as [|item items IH]; simpl; [done|].
    rewrite Forall_cons, <- IH, <- metadata_step_nil_iff. split.
    + by intros [??]%app_eq_nil.
    + by intros [-> ->].
  - intros items more. simpl. rewrite !foldl_metadata_step, !app_nil_l.
    by rewrite map_app, concat_app.
Qed.

(** ** Suggested corrections *)

Lemma existsb_isspace_false `{PyRuntime} s :
  existsb isspace s = false ↔ Forall (λ c, isspace c = false) s.
Proof.
  induction s as [|c s IH]; simpl; [by split|].
  rewrite orb_false_iff, Forall_cons, IH. done.
Qed.

Lemma existsb_isspace_true `{PyRuntime} s :
  existsb isspace s = true ↔ ∃ c, c ∈ s ∧ isspace c = true.
Proof.
  rewrite existsb_exists. split; intros (c & ? & ?); exists c; split;
    (done || by apply list_elem_of_In).
Qed.

(** The three findings, each with the suggestions it adds. *)
Lemma suggest_corrections_parts `{PyRuntime} s :
  s ≠ [] →
  suggest_corrections s
  = (if bool_decide (84%N ∈ upper s)
     then [msg_suggest_T; msg_example (str_replace (upper s) 84%N 85%N)]
     else [])
    ++ (if bool_decide (s ≠ upper s) then [msg_suggest_upper] else [])
    ++ (if existsb isspace s
        then [msg_suggest_space; msg_example (remove_whitespace s)]
        else []).
Proof.
  intros Hs. unfold suggest_corrections. rewrite bool_decide_false by done.
  by destruct (bool_decide (84%N ∈ upper s)), (bool_decide (s ≠ upper s)),
    (existsb isspace s).
Qed.

Lemma suggestions_nil_iff `{PyRuntime} s :
  suggest_corrections s = []
  ↔ s = [] ∨ ((84%N ∉ upper s) ∧ s = upper s
              ∧ Forall (λ c, isspace c = false) s).
Proof.
  destruct (decide (s = [])) as [->|Hs]; [split; [by left|done]|].
  rewrite suggest_corrections_parts by done.
  rewrite <- existsb_isspace_false.
  destruct (existsb isspace s); repeat case_bool_decide; simpl; split;
    try done; try (intros [?|(? & ? & ?)]; done).
  - intros _. right. split_and!; [done| |done].
    by destruct (decide (s = upper s)).
Qed.

(** No suggestion is made exactly for the empty string and for a string
    that holds no T once upper-cased, is its own upper-case form, and
    holds no whitespace. *)
Theorem suggest_corrections_none_iff `{PyRuntime} s :
  suggest_corrections s = []
  ↔ s = [] ∨ ((84%N ∉ upper s) ∧ s = upper s
              ∧ Forall (λ c, isspace c = false) s).
Proof. apply suggestions_nil_iff. Qed.

(** A sequence over A, U, G, C gets no suggestion. *)
Theorem suggest_corrections_conformant `{PyRuntimeLaws} s :
  conformant s → suggest_corrections s = [].
Proof.
  intros Hs. apply suggestions_nil_iff. right.
  rewrite conformant_upper by done. split_and!; [|done|].
  - intros Hin. unfold conformant in Hs. rewrite Forall_forall in Hs.
    apply Hs, elem_of_valid_bases in Hin.
    destruct Hin as [?|[?|[?|?]]]; discriminate.
  - by apply conformant_no_space.
Qed.

Lemma suggest_corrections_conformant_witness :
  conformant (lit "AUGC") ∧ suggest_corrections (lit "AUGC") = [].
Proof.
  assert (conformant (lit "AUGC")) as Hc
    by (repeat constructor; apply elem_of_valid_bases; auto).
  split; [exact Hc|]. exact (suggest_corrections_conformant (lit "AUGC") Hc).
Defined.

Lemma conformant_accepted_iff `{PyRuntimeLaws} c :
  conformant c →
  (validate_rna_sequence (PyStr c)).1 = true
  ↔ 1 ≤ len c ≤ 50000 ∧ (longest_run c ≤ 50)%nat.
Proof.
  intros Hc. rewrite accepted_iff.
  rewrite (strip_fixed c) by (by apply conformant_no_space).
  rewrite conformant_upper by done. tauto.
Qed.

(** For a DNA string, one whose upper-case form is over A, C, G, T and
    holds a T, the preview that is suggested replaces every T by U: it
    holds no T, is a sequence over A, U, G, C as long as the upper-cased
    input, and the validator accepts it whenever its length and its runs
    are within the limits. *)
Theorem suggest_dna_preview `{PyRuntimeLaws} s :
  84%N ∈ upper s →
  (∀ c, c ∈ upper s → c ∈ [65; 67; 71; 84]%N) →
  let corrected := str_replace (upper s) 84%N 85%N in
  msg_example corrected ∈ suggest_corrections s
  ∧ (84%N ∉ corrected)
  ∧ conformant corrected
  ∧ len corrected = len (upper s)
  ∧ ((validate_rna_sequence (PyStr corrected)).1 = true
     ↔ len corrected ≤ 50000 ∧ (longest_run corrected ≤ 50)%nat).
Proof.
  intros HT Hdna corrected.
  assert (s ≠ []) as Hs by (intros ->; by apply elem_of_nil in HT).
  assert (conformant corrected) as Hc.
  { unfold corrected, str_replace, conformant. apply Forall_forall.
    intros c (x & -> & Hx)%list_elem_of_fmap. apply elem_of_valid_bases.
    apply Hdna in Hx. rewrite !elem_of_cons, elem_of_nil in Hx.
    destruct Hx as [->|[->|[->|[->|[]]]]]; simpl; auto. }
  assert (len corrected = len (upper s)) as Hlen
    by (unfold corrected, str_replace, len; by rewrite length_map).
  split_and!; [| |done|done|].
  - rewrite suggest_corrections_parts by done.
    rewrite bool_decide_true by done.
    apply elem_of_app. left. apply elem_of_cons. right.
    apply elem_of_cons. by left.
  - unfold corrected, str_replace.
    intros (x & E & _)%list_elem_of_fmap.
    by destruct (N.eqb_spec x 84) as [|Hx]; [|apply Hx].
  - rewrite conformant_accepted_iff by done.
    assert (1 ≤ len corrected); [|tauto].
    rewrite Hlen. pose proof (len_nonneg (upper s)).
    assert (len (upper s) ≠ 0); [|lia].
    rewrite len_nil_iff. intros E. rewrite E in HT. by apply elem_of_nil in HT.
Qed.

Lemma suggest_dna_preview_witness :
  msg_example (lit "AUGCUU") ∈ suggest_corrections (lit "atgcTT").
Proof.
  assert (84%N ∈ upper (lit "atgcTT")) as HT
    by (apply (bool_decide_unpack _); by vm_compute).
  assert (∀ c, c ∈ upper (lit "atgcTT") → c ∈ [65; 67; 71; 84]%N) as Hdna.
  { apply Forall_forall. apply (bool_decide_unpack _). by vm_compute. }
  exact (proj1 (suggest_dna_preview (lit "atgcTT") HT Hdna)).
Defined.

(** For a string with whitespace, the preview that is suggested drops
    every whitespace character; when what remains is a sequence over A, U,
    G, C the validator accepts it within the limits of length and runs. *)
Theorem suggest_whitespace_preview `{PyRuntimeLaws} s :
  (∃ c, c ∈ s ∧ isspace c = true) →
  let corrected := remove_whitespace s in
  msg_example corrected ∈ suggest_corrections s
  ∧ Forall (λ c, isspace c = false) corrected
  ∧ (conformant corrected →
     (validate_rna_sequence (PyStr corrected)).1 = true
     ↔ 1 ≤ len corrected ≤ 50000 ∧ (longest_run corrected ≤ 50)%nat).
Proof.
  intros Hws corrected.
  assert (s ≠ []) as Hs
    by (destruct Hws as (c & Hc & _); intros ->; by apply elem_of_nil in Hc).
  split_and!.
  - rewrite suggest_corrections_parts by done.
    apply existsb_isspace_true in Hws. rewrite Hws.
    apply elem_of_app. right. apply elem_of_app. right.
    apply elem_of_cons. right. apply elem_of_cons. by left.
  - apply Forall_forall. intros c Hc.
    by apply list_elem_of_filter in Hc as [? _].
  - apply conformant_accepted_iff.
Qed.

Lemma suggest_whitespace_preview_witness :
  (∃ c, c ∈ lit "AU GC" ∧ isspace c = true)
  ∧ msg_example (lit "AUGC") ∈ suggest_corrections (lit "AU GC").
Proof.
  assert (∃ c, c ∈ lit "AU GC" ∧ isspace c = true) as Hws.
  { exists 32%N. split; [|reflexivity].
    apply (bool_decide_unpack _). by vm_compute. }
  split; [exact Hws|].
  exact (proj1 (suggest_whitespace_preview (lit "AU GC") Hws)).
Defined.

(** ** The input panel *)

Lemma check_repetitive_sequence_gt s n :
  0 ≤ n → n < check_repetitive_sequence s → 0 < len s.
Proof.
  intros Hn Hlt. rewrite check_repetitive_sequence_longest_run in Hlt.
  destruct s as [|c s]; [simpl in Hlt; lia|]. unfold len. simpl. lia.
Qed.

Lemma panel_valid_eq `{PyRuntime} s :
  (InputPanel.validate_rna_sequence s).1.1
  = (validate_rna_sequence (PyStr s)).1.
Proof.
  unfold InputPanel.validate_rna_sequence. case_bool_decide as Hs.
  { by subst. }
  destruct (decide (strip s = [])) as [E|Hne].
  { rewrite (validate_not_a_sequence (PyStr s)) by done. by rewrite E. }
  rewrite validate_str by done. unfold content_errors, err_if.
  change (InputPanel.check_repetitive_sequence ?x)
    with (check_repetitive_sequence x).
  change (str_set (lit "AUGC")) with valid_bases.
  unfold min_length, max_length. generalize (upper (strip s)). intros c.
  pose proof (check_repetitive_sequence_gt c 50).
  destruct (Z.ltb_spec (len c) 1), (Z.ltb_spec 50000 (len c)),
    (Z.ltb_spec 0 (len c)), (Z.ltb_spec 50 (check_repetitive_sequence c));
    try lia; by case_bool_decide.
Qed.

Lemma panel_error_count `{PyRuntime} s :
  strip s ≠ [] →
  length (InputPanel.validate_rna_sequence s).2
  = length (validate_rna_sequence (PyStr s)).2.
Proof.
  intros Hne.
  assert (s ≠ []) as Hs by (by intros ->).
  unfold InputPanel.validate_rna_sequence. rewrite bool_decide_false by done.
  rewrite validate_str by done. unfold content_errors, err_if.
  change (InputPanel.check_repetitive_sequence ?x)
    with (check_repetitive_sequence x).
  change (str_set (lit "AUGC")) with valid_bases.
  unfold min_length, max_length. generalize (upper (strip s)). intros c.
  pose proof (check_repetitive_sequence_gt c 50).
  destruct (Z.ltb_spec (len c) 1), (Z.ltb_spec 50000 (len c)),
    (Z.ltb_spec 0 (len c)), (Z.ltb_spec 50 (check_repetitive_sequence c));
    try lia; by case_bool_decide.
Qed.

(** The input panel and the API validator agree on every string: one
    accepts it exactly when the other does. On a string that is not blank
    the sequence the panel hands on is the trimmed, upper-cased one, and
    both report equally many findings. *)
Theorem panel_agrees_with_validator `{PyRuntime} s :
  (InputPanel.validate_rna_sequence s).1.1
  = (validate_rna_sequence (PyStr s)).1
  ∧ (strip s ≠ [] →
     (InputPanel.validate_rna_sequence s).1.2 = upper (strip s)
     ∧ length (InputPanel.validate_rna_sequence s).2
       = length (validate_rna_sequence (PyStr s)).2).
Proof.
  split; [apply panel_valid_eq|]. intros Hne.
  split; [|by apply panel_error_count].
  assert (s ≠ []) as Hs by (by intros ->).
  unfold InputPanel.validate_rna_sequence. by rewrite bool_decide_false.
Qed.

Lemma panel_agrees_with_validator_witness :
  strip (lit " auxg ") ≠ []
  ∧ length (InputPanel.validate_rna_sequence (lit " auxg ")).2
    = length (validate_rna_sequence (PyStr (lit " auxg "))).2.
Proof.
  assert (strip (lit " auxg ") ≠ []) as Hne by (by vm_compute).
  split; [exact Hne|].
  exact (proj2 (proj2 (panel_agrees_with_validator (lit " auxg ")) Hne)).
Defined.

(** When the panel accepts an input, the statistics it shows for the
    cleaned sequence are those the API computes for it, the base counts
    add up to the length, and GC plus AU content is 1. *)
Theorem panel_stats_of_valid `{PyRuntimeLaws} s :
  (InputPanel.validate_rna_sequence s).1.1 = true →
  let cleaned := (InputPanel.validate_rna_sequence s).1.2 in
  ∃ ss st,
    InputPanel.calculate_sequence_stats cleaned = Some ss
    ∧ get_sequence_statistics cleaned = Some st
    ∧ InputPanel.ss_length ss = stat_length st
    ∧ InputPanel.ss_base_counts ss = stat_base_counts st
    ∧ InputPanel.ss_gc_content ss = stat_gc_content st
    ∧ InputPanel.ss_au_content ss = stat_au_content st
    ∧ InputPanel.ss_max_repeat_length ss = stat_max_repeat_length st
    ∧ sum_int (dict_values (InputPanel.ss_base_counts ss))
      = InputPanel.ss_length ss
    ∧ (InputPanel.ss_gc_content ss + InputPanel.ss_au_content ss == 1)%Q.
Proof.
  intros Hv cleaned.
  assert (s ≠ []) as Hs.
  { intros ->. revert Hv. unfold InputPanel.validate_rna_sequence.
    by rewrite bool_decide_true. }
  assert (cleaned = upper (strip s)) as Ec.
  { unfold cleaned, InputPanel.validate_rna_sequence.
    by rewrite bool_decide_false. }
  rewrite panel_valid_eq, accepted_iff, <- Ec in Hv.
  destruct Hv as (Hc & Hl & _). clearbody cleaned.
  assert (cleaned ≠ []) as Hne by (rewrite <- len_nil_iff; lia).
  pose proof (base_counts_conformant cleaned Hc) as Hsum.
  unfold InputPanel.calculate_sequence_stats, get_sequence_statistics.
  rewrite conformant_upper, !bool_decide_false by done.
  destruct (Z.eqb_spec (len cleaned) 0); [lia|].
  destruct (Z.ltb_spec 0 (len cleaned)); [|lia].
  eexists _, _. split_and!; try reflexivity.
  - cbn. unfold sum_int. simpl. lia.
  - cbn [InputPanel.ss_gc_content InputPanel.ss_au_content].
    destruct (dict_get_base_counts
                (str_count cleaned 65%N) (str_count cleaned 85%N)
                (str_count cleaned 71%N) (str_count cleaned 67%N))
      as (-> & -> & -> & ->).
    rewrite true_div_split by lia.
    replace (str_count cleaned 71%N + str_count cleaned 67%N
             + (str_count cleaned 65%N + str_count cleaned 85%N))
      with (len cleaned) by lia.
    apply true_div_self. lia.
Qed.

Lemma panel_stats_of_valid_witness :
  (InputPanel.validate_rna_sequence (lit " augc")).1.1 = true
  ∧ ∃ ss, InputPanel.calculate_sequence_stats
            (InputPanel.validate_rna_sequence (lit " augc")).1.2 = Some ss
          ∧ sum_int (dict_values (InputPanel.ss_base_counts ss))
            = InputPanel.ss_length ss.
Proof.
  assert ((InputPanel.validate_rna_sequence (lit " augc")).1.1 = true) as Hv
    by (by vm_compute).
  split; [exact Hv|].
  destruct (panel_stats_of_valid (lit " augc") Hv)
    as (ss & st & Ess & _ & _ & _ & _ & _ & _ & Hsum & _).
  exists ss. by split.
Defined.

(** ** Dot-bracket structures *)

Lemma str_count_app s t c : str_count (s ++ t) c = str_count s c + str_count t c.
Proof. induction s as [|x s IH]; simpl; [done|]. rewrite IH. lia. Qed.

Lemma str_count_Permutation s t c : s ≡ₚ t → str_count s c = str_count t c.
Proof. induction 1; simpl; lia. Qed.

Lemma difference_empty_iff (s : str) (X : gset N) :
  str_set s ∖ X = ∅ ↔ Forall (λ c, c ∈ X) s.
Proof.
  unfold str_set. rewrite Forall_forall. split.
  - intros E c Hc. destruct (decide (c ∈ X)) as [|Hn]; [done|].
    assert (c ∈ (list_to_set s ∖ X : gset N)) as Hin
      by (by apply elem_of_difference; rewrite elem_of_list_to_set).
    rewrite E in Hin. by apply elem_of_empty in Hin.
  - intros Hs. apply elem_of_equiv_empty_L.
    intros c [Hc Hn]%elem_of_difference.
    apply Hn, Hs. by apply elem_of_list_to_set in Hc.
Qed.

Lemma bracket_step_app cleaned errors pair :
  InputPanel.bracket_step cleaned errors pair
  = errors ++ bracket_errors cleaned pair.
Proof.
  unfold bracket_errors, InputPanel.bracket_step. destruct pair as [o c].
  destruct (negb _); by rewrite ?app_nil_r.
Qed.

Lemma foldl_bracket_step cleaned errors pairs :
  foldl (InputPanel.bracket_step cleaned) errors pairs
  = errors ++ concat (map (bracket_errors cleaned) pairs).
Proof.
  revert errors. induction pairs as [|pair pairs IH]; intros errors; simpl.
  - by rewrite app_nil_r.
  - by rewrite IH, bracket_step_app, <- app_assoc.
Qed.

Lemma bracket_errors_nil_iff cleaned pair :
  bracket_errors cleaned pair = []
  ↔ str_count cleaned pair.1 = str_count cleaned pair.2.
Proof.
  unfold bracket_errors, InputPanel.bracket_step. destruct pair as [o c].
  simpl. destruct (Z.eqb_spec (str_count cleaned o) (str_count cleaned c));
    simpl; split; (done || by destruct (InputPanel.msg_unbalanced o c)).
Qed.

Lemma validate_dot_bracket_eq `{PyRuntime} s :
  InputPanel.validate_dot_bracket s
  = (len (dot_bracket_errors (strip s)) =? 0, strip s,
     dot_bracket_errors (strip s)).
Proof.
  unfold InputPanel.validate_dot_bracket. case_bool_decide as Hs.
  { subst. by vm_compute. }
  rewrite foldl_bracket_step. unfold dot_bracket_errors, err_if.
  by case_bool_decide.
Qed.

Lemma dot_bracket_errors_nil_iff cleaned :
  dot_bracket_errors cleaned = []
  ↔ Forall (λ c, c ∈ InputPanel.structure_chars) cleaned
    ∧ Forall (λ pair, str_count cleaned pair.1 = str_count cleaned pair.2)
             InputPanel.bracket_pairs.
Proof.
  unfold dot_bracket_errors. cbv zeta.
  rewrite <- difference_empty_iff.
  assert (∀ pairs,
            concat (map (bracket_errors cleaned) pairs) = []
            ↔ Forall (λ pair, str_count cleaned pair.1
                              = str_count cleaned pair.2) pairs) as Hpairs.
  { induction pairs as [|pair pairs IH]; simpl; [done|].
    rewrite Forall_cons, <- IH, <- bracket_errors_nil_iff. split.
    - by intros [??]%app_eq_nil.
    - by intros [-> ->]. }
  rewrite <- Hpairs. unfold err_if. case_bool_decide as Hinv; split.
  - intros [? _]%app_eq_nil. done.
  - by intros [? _].
  - intros E. split; [|done].
    by destruct (decide (str_set cleaned ∖ InputPanel.structure_chars = ∅)).
  - by intros [_ ->].
Qed.

(** A structure is accepted exactly when, once trimmed, it holds only
    dots and the eight brackets, and as many opening as closing brackets
    of each of the four kinds. *)
Theorem validate_dot_bracket_accepts `{PyRuntime} s :
  (InputPanel.validate_dot_bracket s).1.1 = true
  ↔ Forall (λ c, c ∈ InputPanel.structure_chars) (strip s)
    ∧ Forall (λ pair, str_count (strip s) pair.1 = str_count (strip s) pair.2)
             InputPanel.bracket_pairs.
Proof.
  rewrite validate_dot_bracket_eq. cbn [fst].
  by rewrite Z.eqb_eq, len_nil_iff, dot_bracket_errors_nil_iff.
Qed.

(** The check looks at the characters and their numbers only, not at their
    order: two structures whose trimmed forms are rearrangements of each
    other get the same verdict and the same errors. *)
Theorem validate_dot_bracket_permutation `{PyRuntime} s t :
  strip s ≡ₚ strip t →
  (InputPanel.validate_dot_bracket s).1.1
  = (InputPanel.validate_dot_bracket t).1.1
  ∧ (InputPanel.validate_dot_bracket s).2
    = (InputPanel.validate_dot_bracket t).2.
Proof.
  intros Hp. rewrite !validate_dot_bracket_eq. cbn [fst snd].
  assert (dot_bracket_errors (strip s) = dot_bracket_errors (strip t)) as ->;
    [|done].
  unfold dot_bracket_errors, str_set. cbv zeta.
  rewrite (list_to_set_perm_L _ _ Hp). f_equal. f_equal.
  apply map_ext. intros [o c]. unfold bracket_errors, InputPanel.bracket_step.
  by rewrite !(str_count_Permutation _ _ _ Hp).
Qed.

Lemma validate_dot_bracket_permutation_witness :
  strip (lit "()") ≡ₚ strip (lit ")(")
  ∧ (InputPanel.validate_dot_bracket (lit "()")).1.1
    = (InputPanel.validate_dot_bracket (lit ")(")).1.1.
Proof.
  assert (strip (lit "()") ≡ₚ strip (lit ")(")) as Hp by apply perm_swap.
  split; [exact Hp|].
  exact (proj1 (validate_dot_bracket_permutation (lit "()") (lit ")(") Hp)).
Defined.

Lemma bracket_pair_cases pair :
  pair ∈ InputPanel.bracket_pairs →
  pair = (40, 41)%N ∨ pair = (60, 62)%N ∨ pair = (91, 93)%N
  ∨ pair = (123, 125)%N.
Proof.
  unfold InputPanel.bracket_pairs. rewrite !elem_of_cons, elem_of_nil. tauto.
Qed.

Lemma well_nested_chars w :
  well_nested w → Forall (λ c, c ∈ InputPanel.structure_chars) w.
Proof.
  assert (∀ c, c ∈ lit "().<>[]{}" → c ∈ InputPanel.structure_chars) as Hin.
  { intros c Hc. by apply elem_of_list_to_set. }
  induction 1 as [|w _ IH|o c inner rest Hp _ IH1 _ IH2].
  - constructor.
  - constructor; [|done]. apply Hin, (bool_decide_unpack _). by vm_compute.
  - rewrite !Forall_app. split_and!; [|done| |done].
    + constructor; [|constructor]. apply Hin.
      destruct (bracket_pair_cases _ Hp) as [E|[E|[E|E]]];
        injection E as -> ->; apply (bool_decide_unpack _); by vm_compute.
    + constructor; [|constructor]. apply Hin.
      destruct (bracket_pair_cases _ Hp) as [E|[E|[E|E]]];
        injection E as -> ->; apply (bool_decide_unpack _); by vm_compute.
Qed.

Lemma well_nested_counts w pair :
  well_nested w → pair ∈ InputPanel.bracket_pairs →
  str_count w pair.1 = str_count w pair.2.
Proof.
  intros Hw Hpair. induction Hw as [|w _ IH|o c inner rest Hp _ IH1 _ IH2].
  - done.
  - destruct (bracket_pair_cases _ Hpair) as [-> | [-> | [-> | ->]]];
      simpl in *; lia.
  - rewrite !str_count_app.
    destruct (bracket_pair_cases _ Hpair) as [-> | [-> | [-> | ->]]];
      destruct (bracket_pair_cases _ Hp) as [E|[E|[E|E]]];
      injection E as -> ->; simpl in *; lia.
Qed.

(** Every structure of matched, nested brackets and dots is accepted, and
    handed on trimmed, with no error. *)
Theorem validate_dot_bracket_well_nested `{PyRuntime} s :
  well_nested (strip s) →
  InputPanel.validate_dot_bracket s = (true, strip s, []).
Proof.
  intros Hw. rewrite validate_dot_bracket_eq.
  assert (dot_bracket_errors (strip s) = []) as ->; [|done].
  apply dot_bracket_errors_nil_iff. split; [by apply well_nested_chars|].
  apply Forall_forall. intros pair Hpair. by apply well_nested_counts.
Qed.

Lemma validate_dot_bracket_well_nested_witness :
  well_nested (strip (lit " ((..)). "))
  ∧ InputPanel.validate_dot_bracket (lit " ((..)). ")
    = (true, lit "((..)).", []).
Proof.
  assert (well_nested (strip (lit " ((..)). "))) as Hw.
  { change (strip (lit " ((..)). "))
      with ([40%N] ++ ([40%N] ++ [46; 46]%N ++ [41%N] ++ [])
            ++ [41%N] ++ [46%N]).
    apply wn_pair; [by left| |by repeat constructor].
    apply wn_pair; [by left|by repeat constructor|constructor]. }
  split; [exact Hw|].
  exact (validate_dot_bracket_well_nested (lit " ((..)). ") Hw).
Defined.

(** ** The request models and the validation endpoint *)

Lemma forallb_valid_bases u :
  forallb (λ base, bool_decide (base ∈ valid_bases)) u = true ↔ conformant u.
Proof.
  unfold conformant. rewrite forallb_forall, Forall_forall. split.
  - intros Hu c Hc. apply list_elem_of_In, Hu in Hc.
    by apply bool_decide_eq_true in Hc.
  - intros Hu c Hc. apply bool_decide_eq_true, Hu. by apply list_elem_of_In.
Qed.

Lemma validate_field_cases `{PyRuntime} message v :
  (strip v = [] ∧ RnaModels.validate_field message v
                  = RnaModels.Raises (RnaModels.Message message))
  ∨ (strip v ≠ [] ∧ conformant (upper (strip v))
     ∧ RnaModels.validate_field message v
       = RnaModels.Returns (upper (strip v)))
  ∨ (strip v ≠ [] ∧ ¬ conformant (upper (strip v))
     ∧ RnaModels.validate_field message v
       = RnaModels.Raises
           (RnaModels.InvalidBases (str_set (upper (strip v)) ∖ valid_bases))).
Proof.
  unfold RnaModels.validate_field.
  change (str_set (lit "AUGC")) with valid_bases.
  destruct (decide (strip v = [])) as [E|Hs].
  { left. split; [done|]. rewrite (bool_decide_true (strip v = [])) by done.
    by rewrite orb_true_r. }
  right. rewrite !bool_decide_false; [|done|by intros ->]. cbn [orb].
  destruct (forallb _ (upper (strip v))) eqn:Ef.
  - left. by apply forallb_valid_bases in Ef.
  - right. split_and!; [done| |done].
    intros Hc. apply forallb_valid_bases in Hc. congruence.
Qed.

(** A field validator returns exactly for a value that is not blank and
    whose trimmed, upper-cased form is a sequence over A, U, G, C, and
    then returns that form; it raises the message exactly for a blank
    value; and it raises the set of the invalid bases exactly for a value
    that is not blank and whose trimmed, upper-cased form is no such
    sequence; that set is never empty. *)
Theorem field_validator_outcome `{PyRuntime} message v :
  (∀ u, RnaModels.validate_field message v = RnaModels.Returns u
        ↔ strip v ≠ [] ∧ u = upper (strip v) ∧ conformant u)
  ∧ (RnaModels.validate_field message v
     = RnaModels.Raises (RnaModels.Message message) ↔ strip v = [])
  ∧ (∀ X, RnaModels.validate_field message v
          = RnaModels.Raises (RnaModels.InvalidBases X)
          ↔ strip v ≠ [] ∧ ¬ conformant (upper (strip v))
            ∧ X = str_set (upper (strip v)) ∖ valid_bases)
  ∧ (∀ X, RnaModels.validate_field message v
          = RnaModels.Raises (RnaModels.InvalidBases X) → X ≠ ∅).
Proof.
  destruct (validate_field_cases message v)
    as [[Hs ->]|[(Hs & Hc & ->)|(Hs & Hc & ->)]]; split_and!.
  - intros u. split; [done|]. by intros [? _].
  - done.
  - intros X. split; [done|]. by intros [? _].
  - done.
  - intros u. split.
    + by intros [= <-].
    + by intros (_ & -> & _).
  - split; [done|]. intros E. by rewrite E in Hs.
  - intros X. split; [done|]. by intros (_ & ? & _).
  - done.
  - intros u. split; [done|]. intros (_ & -> & ?). done.
  - split; [done|]. intros E. by rewrite E in Hs.
  - intros X. split.
    + by intros [= <-].
    + by intros (_ & _ & ->).
  - intros X [= <-]. by rewrite <- invalid_bases_empty_iff in Hc.
Qed.

(** What a field validator returns is a fixed point of every field
    validator, is not empty, and is judged by the API validator as the raw
    value is: with no alphabet error, and accepted exactly when it has at
    most 50000 characters and no run longer than 50. *)
Theorem field_validator_normalizes `{PyRuntimeLaws} message message' v u :
  RnaModels.validate_field message v = RnaModels.Returns u →
  u ≠ []
  ∧ RnaModels.validate_field message' u = RnaModels.Returns u
  ∧ validate_rna_sequence (PyStr u) = validate_rna_sequence (PyStr v)
  ∧ filter (λ e, is_alphabet_error e = true) (validate_rna_sequence (PyStr u)).2
    = []
  ∧ ((validate_rna_sequence (PyStr u)).1 = true
     ↔ len u ≤ 50000 ∧ (longest_run u ≤ 50)%nat).
Proof.
  intros Hret.
  destruct (validate_field_cases message v)
    as [[_ E]|[(Hs & Hc & E)|(_ & _ & E)]]; rewrite E in Hret;
    [done| |done].
  injection Hret as <-.
  assert (upper (strip v) ≠ []) as Hne by (by apply upper_nonempty).
  assert (strip (upper (strip v)) = upper (strip v)) as Estrip
    by (by apply strip_fixed, conformant_no_space).
  assert (upper (upper (strip v)) = upper (strip v)) as Eupper
    by (by apply conformant_upper).
  assert (validate_rna_sequence (PyStr (upper (strip v)))
          = validate_rna_sequence (PyStr v)) as Eval.
  { rewrite !validate_str; rewrite ?Estrip, ?Eupper; done. }
  split_and!; [done| |done| |].
  - destruct (validate_field_cases message' (upper (strip v)))
      as [[Hs' _]|[(_ & _ & ->)|(_ & Hc' & _)]].
    + by rewrite Estrip in Hs'.
    + by rewrite Estrip, Eupper.
    + by rewrite Estrip, Eupper in Hc'.
  - rewrite Eval, validate_str by done. cbn [snd].
    rewrite content_errors_alphabet, invalid_bases_conformant by done.
    by rewrite bool_decide_false by (intros Hn; by apply Hn).
  - rewrite conformant_accepted_iff by done.
    assert (1 ≤ len (upper (strip v))); [|tauto].
    pose proof (len_nonneg (upper (strip v))).
    assert (len (upper (strip v)) ≠ 0) by (by rewrite len_nil_iff). lia.
Qed.

Lemma field_validator_normalizes_witness :
  RnaModels.validate_sequence (lit " augc ") = RnaModels.Returns (lit "AUGC")
  ∧ RnaModels.validate_rna_sequence (lit "AUGC")
    = RnaModels.Returns (lit "AUGC").
Proof.
  assert (RnaModels.validate_sequence (lit " augc ")
          = RnaModels.Returns (lit "AUGC")) as Hret by (by vm_compute).
  split; [exact Hret|].
  exact (proj1 (proj2 (field_validator_normalizes
                         (lit "Sequence cannot be empty")
                         (lit "Enter a valid RNA sequence")
                         (lit " augc ") (lit "AUGC") Hret))).
Defined.

(** On a sequence returned by the request model, the validation endpoint
    answers with that sequence unchanged, its length, which is at least 1,
    and the GC content the validator computes, which lies between 0 and 1;
    the answer is valid exactly when the sequence has at most 50000
    characters and no run longer than 50, that is when it carries no
    error. *)
Theorem validate_endpoint_on_model `{PyRuntimeLaws} v u :
  RnaModels.validate_rna_sequence v = RnaModels.Returns u →
  let response := Routes.validate_rna_sequence u in
  Routes.sequence response = u
  ∧ Routes.length response = len u
  ∧ 1 ≤ Routes.length response
  ∧ Routes.gc_content response = calculate_gc_content u
  ∧ (0 <= Routes.gc_content response)%Q
  ∧ (Routes.gc_content response <= 1)%Q
  ∧ (Routes.is_valid response = true
     ↔ len u ≤ 50000 ∧ (longest_run u ≤ 50)%nat)
  ∧ (Routes.is_valid response = true ↔ Routes.errors response = []).
Proof.
  intros Hret response.
  destruct (validate_field_cases (lit "Enter a valid RNA sequence") v)
    as [[_ E]|[(Hs & Hc & E)|(_ & _ & E)]];
    unfold RnaModels.validate_rna_sequence in Hret; rewrite E in Hret;
    [done| |done].
  injection Hret as <-.
  assert (upper (strip v) ≠ []) as Hne by (by apply upper_nonempty).
  clear E Hs. revert response Hc Hne. generalize (upper (strip v)). clear v.
  intros u response Hc Hne.
  assert (strip u = u) as Estrip by (by apply strip_fixed, conformant_no_space).
  assert (upper u = u) as Eupper by (by apply conformant_upper).
  assert (1 ≤ len u) as Hlen.
  { pose proof (len_nonneg u).
    assert (len u ≠ 0) by (by rewrite len_nil_iff). lia. }
  pose proof (conformant_accepted_iff u Hc) as Hacc.
  destruct (statistics_some u) as (st & Est & Hl & _ & _ & Hgc & _).
  { by rewrite Eupper. }
  rewrite Eupper in Hl, Hgc.
  assert (stat_gc_content st = calculate_gc_content u) as Egc.
  { rewrite Hgc. unfold calculate_gc_content.
    by destruct (Z.eqb_spec (len u) 0); [lia|]. }
  unfold response, Routes.validate_rna_sequence.
  rewrite Est. rewrite validate_str in * by (by rewrite Estrip).
  rewrite Estrip, Eupper in *. cbn [fst snd] in *.
  cbn [Routes.sequence Routes.length Routes.gc_content Routes.is_valid
       Routes.errors].
  rewrite bool_decide_true by done. rewrite Hl, Egc.
  destruct (gc_content_unit u) as [Hlo Hhi].
  split_and!; try done.
  - tauto.
  - by rewrite Z.eqb_eq, len_nil_iff.
Qed.

Lemma validate_endpoint_on_model_witness :
  RnaModels.validate_rna_sequence (lit " augc ")
  = RnaModels.Returns (lit "AUGC")
  ∧ Routes.sequence (Routes.validate_rna_sequence (lit "AUGC")) = lit "AUGC"
  ∧ Routes.length (Routes.validate_rna_sequence (lit "AUGC")) = 4.
Proof.
  assert (RnaModels.validate_rna_sequence (lit " augc ")
          = RnaModels.Returns (lit "AUGC")) as Hret by (by vm_compute).
  split; [exact Hret|].
  destruct (validate_endpoint_on_model (lit " augc ") (lit "AUGC") Hret)
    as (Hseq & Hlen & _).
  by split.
Defined.
